(** * @vorthain/nexus: the event hub of [src/index.js]

    A shallow embedding of [createNexusHub] and of the ten methods of the
    hub object it returns, followed by the properties of the hub that
    the specification states.

    The hub is a JavaScript closure over [eventNames], [validEvents],
    [callbacks], [debugAll], [debugFilter], [logger] and [onceWrappers];
    here these are the fields of the record [hub] and every method is a
    function that takes the record and returns the updated one.  Listeners
    and loggers are client code: they are represented by the calls they
    make back into the hub (type [stmt]), so that a listener may register,
    remove and emit while it is being dispatched to. *)

From Stdlib Require Import ZArith NArith Ascii String List Sorted Lia.
From stdpp Require Import gmap strings list.

Local Open Scope string_scope.
Local Open Scope list_scope.
Set Warnings "-register-all".

(** ** JavaScript values *)

(** Arrays and plain objects are reference values: [ref] is the identity of
    the object.  Numbers stand for themselves; the hub only ever asks for
    their type.  A function value is the function it denotes. *)
Inductive value : Type :=
| VUndefined
| VNull
| VBoolean (b : bool)
| VNumber (n : Z)
| VString (s : string)
| VArray (ref : nat) (elems : list value)
| VObject (ref : nat)
| VFunction (f : func)

(** The functions that can be stored in a hub: a client function, given by
    the hub calls of its body; the arrow function that [once] builds around
    a callback; and the logger installed at construction. *)
with func : Type :=
| Closure (ref : nat) (body : list stmt)
| OnceWrapper (callback : func) (eventName id : value)
| DefaultLogger

(** What client code does, as far as the hub can tell: it calls a method of
    the hub (the value returned is dropped), or it throws. *)
with stmt : Type :=
| SOn (eventName id callback : value)
| SOnce (eventName id callback : value)
| SOff (eventName id : value)
| SEmit (eventName data : value)
| SClear (eventName : value)
| SListenerCount (eventName : value)
| SListeners (eventName : value)
| SEventNames
| SSetDebug (enabled : value)
| SSetLogger (fn : value)
| SThrow (error : value).

(** [typeof v] *)
Definition typeof (v : value) : string :=
  match v with
  | VUndefined => "undefined"
  | VNull => "object"
  | VBoolean _ => "boolean"
  | VNumber _ => "number"
  | VString _ => "string"
  | VArray _ _ => "object"
  | VObject _ => "object"
  | VFunction _ => "function"
  end.

(** SameValueZero, the equality of [Set.prototype.has] and of the [Set]
    constructor.  Primitives are compared by value and objects by identity;
    a closure is identified by its [ref], a wrapper by what it captured. *)
Fixpoint same_value_zero (a b : value) : bool :=
  match a, b with
  | VUndefined, VUndefined => true
  | VNull, VNull => true
  | VBoolean x, VBoolean y => Bool.eqb x y
  | VNumber x, VNumber y => Z.eqb x y
  | VString x, VString y => String.eqb x y
  | VArray r _, VArray r' _ => Nat.eqb r r'
  | VObject r, VObject r' => Nat.eqb r r'
  | VFunction f, VFunction g => same_function f g
  | _, _ => false
  end
with same_function (f g : func) : bool :=
  match f, g with
  | Closure r _, Closure r' _ => Nat.eqb r r'
  | OnceWrapper c e i, OnceWrapper c' e' i' =>
      same_function c c' && same_value_zero e e' && same_value_zero i i'
  | DefaultLogger, DefaultLogger => true
  | _, _ => false
  end.

(** A [Set] of values: its elements in insertion order, without repetition. *)
Definition set_has (v : value) (s : list value) : bool :=
  existsb (same_value_zero v) s.

Definition set_add (s : list value) (v : value) : list value :=
  if set_has v s then s else s ++ [v].

(** [new Set(elems)] *)
Definition new_Set (elems : list value) : list value :=
  fold_left set_add elems [].

(** ** Strings *)

(** The characters of a [string] are the code units below 256.  Among them
    the white space and line terminators that [trim] removes are TAB, LF,
    VT, FF, CR, SP and NBSP. *)
Definition is_white_space (c : ascii) : bool :=
  let n := nat_of_ascii c in
  ((9 <=? n)%nat && (n <=? 13)%nat) || (n =? 32)%nat || (n =? 160)%nat.

Fixpoint trim_start (s : string) : string :=
  match s with
  | EmptyString => EmptyString
  | String c r => if is_white_space c then trim_start r else s
  end.

Fixpoint trim_end (s : string) : string :=
  match s with
  | EmptyString => EmptyString
  | String c r =>
      match trim_end r with
      | EmptyString => if is_white_space c then EmptyString else String c EmptyString
      | r' => String c r'
      end
  end.

(** [s.trim()] *)
Definition trim (s : string) : string := trim_end (trim_start s).

(** ** Ordinary objects used as dictionaries *)

(** [Object.create(null)]: no prototype, so every key is an own data
    property.  The list holds the properties in the order of their creation. *)
Definition object : Type := list (string * func).

Definition digit_of (c : ascii) : option N :=
  let n := N_of_ascii c in
  if ((48 <=? n) && (n <=? 57))%N then Some (n - 48)%N else None.

Fixpoint parse_digits (acc : N) (s : string) : option N :=
  match s with
  | EmptyString => Some acc
  | String c r =>
      match digit_of c with
      | Some d => parse_digits (10 * acc + d)%N r
      | None => None
      end
  end.

(** A property key is an array index when it is the canonical decimal
    spelling of an integer between 0 and 2^32 - 2. *)
Definition array_index (k : string) : option N :=
  match k with
  | EmptyString => None
  | String "0"%char EmptyString => Some 0%N
  | String "0"%char _ => None
  | _ =>
      match parse_digits 0 k with
      | Some n => if (n <? 4294967295)%N then Some n else None
      | None => None
      end
  end.

Definition is_index (p : string * func) : bool :=
  match array_index p.1 with Some _ => true | None => false end.

Definition index_of (p : string * func) : N :=
  match array_index p.1 with Some n => n | None => 0%N end.

Fixpoint insert_by_index (p : string * func) (l : list (string * func))
  : list (string * func) :=
  match l with
  | [] => [p]
  | q :: r => if (index_of p <=? index_of q)%N then p :: l
              else q :: insert_by_index p r
  end.

Definition sort_by_index (l : list (string * func)) : list (string * func) :=
  foldr insert_by_index [] l.

(** The own properties in the order in which [Object.keys] and
    [Object.values] visit them: array indices first, in ascending numeric
    order, then the other keys in the order of their creation. *)
Definition own_properties (o : object) : list (string * func) :=
  sort_by_index (List.filter is_index o)
  ++ List.filter (fun p => negb (is_index p)) o.

Definition Object_keys (o : object) : list string := (own_properties o).*1.
Definition Object_values (o : object) : list func := (own_properties o).*2.

(** [o[k]] *)
Fixpoint get_property (k : string) (o : object) : option func :=
  match o with
  | [] => None
  | (k', v) :: r => if String.eqb k k' then Some v else get_property k r
  end.

(** [o[k] = v]: an existing property keeps its place, a new one is created
    last. *)
Fixpoint set_property (k : string) (v : func) (o : object) : object :=
  match o with
  | [] => [(k, v)]
  | (k', v') :: r =>
      if String.eqb k k' then (k', v) :: r else (k', v') :: set_property k v r
  end.

(** [delete o[k]] *)
Fixpoint delete_property (k : string) (o : object) : object :=
  match o with
  | [] => []
  | (k', v') :: r =>
      if String.eqb k k' then delete_property k r
      else (k', v') :: delete_property k r
  end.

(** ** Errors and completions *)

Inductive error_class : Type := ClassError | ClassTypeError.

(** The messages of the hub's [throw] statements. *)
Inductive message : Type :=
| MustBeArray
| AtLeastOneName
| DuplicateNames
| NameMustBeString (type : string)
| NotRegistered (eventName : value) (valid : list value)
| IdMustBeNonEmptyString
| CallbackMustBeFunction
| IdMustBeString
| DebugMustBeBooleanOrArray
| LoggerMustBeFunction.

(** What can be thrown: an error built by the hub, a value thrown by client
    code, or the TypeError of the engine for a property access on
    [undefined]. *)
Inductive exn : Type :=
| HubError (c : error_class) (m : message)
| Thrown (v : value)
| EngineTypeError.

Inductive completion (A : Type) : Type :=
| Return (a : A)
| Throw (e : exn).
Arguments Return {A} a.
Arguments Throw {A} e.

(** The two kinds of failure of the specification: a reference to an
    undeclared channel, and any other malformed argument. *)
Inductive error_kind : Type := InvalidArgument | UnknownChannel.

Definition kind_of (e : exn) : option error_kind :=
  match e with
  | HubError _ (NotRegistered _ _) => Some UnknownChannel
  | HubError _ _ => Some InvalidArgument
  | _ => None
  end.

(** ** The state of a hub *)

(** The variables that the methods close over.  [eventNames] is the array
    that was passed to [createNexusHub]: the hub keeps no copy of it but
    reads the caller's own array, so the field holds what that array
    holds now, and [caller_writes] below is the caller changing it.  The two
    [Set]s are lists without repetition.  [callbacks] maps each name to its
    listener object.  [onceWrappers] is a [WeakMap] that the source writes
    to and never reads: the field keeps the pairs in the order written. *)
Record hub : Type := Hub {
  eventNames : list value;
  validEvents : list value;
  callbacks : gmap string object;
  debugAll : bool;
  debugFilter : option (list value);
  logger : func;
  onceWrappers : list (func * func)
}.

(** What a run prints and whom it calls.  A call records the function, its
    arguments, what happened during the call, and how it ended:
    [LoggerCall] is [logger(eventName, data)] and [ListenerCall] is
    [cb(data)] in [emit], [CallbackCall] is [callback(data)] in the wrapper
    of [once].  [ConsoleLog] is the line of the default logger, without
    its time stamp; the other two are the [console.error] calls of
    [emit]. *)
Inductive event : Type :=
| LoggerCall (f : func) (eventName data : value) (inner : list event)
    (r : completion unit)
| ListenerCall (cb : func) (data : value) (inner : list event)
    (r : completion unit)
| CallbackCall (cb : func) (data : value) (inner : list event)
    (r : completion unit)
| ConsoleLog (eventName data : value)
| ConsoleErrorListener (eventName : value) (error : exn)
| ConsoleErrorCount (count : nat) (eventName : value).

(** A method returns or throws, and leaves a hub behind; a call into client
    code also leaves events, and gives nothing when the calls nest deeper
    than the depth allowed to the run. *)
Definition result (A : Type) : Type := completion A * hub.
Definition outcome (A : Type) : Type := option (completion A * hub * list event).

Definition with_callbacks (c : gmap string object) (h : hub) : hub :=
  {| eventNames := eventNames h; validEvents := validEvents h;
     callbacks := c;
     debugAll := debugAll h; debugFilter := debugFilter h;
     logger := logger h; onceWrappers := onceWrappers h |}.

Definition with_debug (a : bool) (f : option (list value)) (h : hub) : hub :=
  {| eventNames := eventNames h; validEvents := validEvents h;
     callbacks := callbacks h;
     debugAll := a; debugFilter := f;
     logger := logger h; onceWrappers := onceWrappers h |}.

Definition with_logger (fn : func) (h : hub) : hub :=
  {| eventNames := eventNames h; validEvents := validEvents h;
     callbacks := callbacks h;
     debugAll := debugAll h; debugFilter := debugFilter h;
     logger := fn; onceWrappers := onceWrappers h |}.

Definition with_onceWrappers (w : list (func * func)) (h : hub) : hub :=
  {| eventNames := eventNames h; validEvents := validEvents h;
     callbacks := callbacks h;
     debugAll := debugAll h; debugFilter := debugFilter h;
     logger := logger h; onceWrappers := w |}.

(** [callbacks[name]].  A name that [validEvents] has is a string (see
    [hub_wf]); for any other value the access finds nothing. *)
Definition channel (h : hub) (name : value) : option object :=
  match name with
  | VString s => callbacks h !! s
  | _ => None
  end.

(** [callbacks[name] = o] *)
Definition set_channel (name : value) (o : object) (h : hub) : hub :=
  match name with
  | VString s => with_callbacks (<[s := o]> (callbacks h)) h
  | _ => h
  end.

(** The error of every method for a name that [validEvents] does not have. *)
Definition not_registered (eventName : value) (h : hub) : exn :=
  HubError ClassError (NotRegistered eventName (validEvents h)).

(** ** Construction *)

(** The loop of [createNexusHub] over the names: the first name that is not
    a string stops it, every other one gets an empty object. *)
Fixpoint init_callbacks (names : list value) (c : gmap string object)
  : completion (gmap string object) :=
  match names with
  | [] => Return c
  | VString s :: rest => init_callbacks rest (<[s := []]> c)
  | v :: _ => Throw (HubError ClassTypeError (NameMustBeString (typeof v)))
  end.

Definition createNexusHub (names : value) : completion hub :=
  match names with
  | VArray _ elems =>
      if (length elems =? 0)%nat then Throw (HubError ClassError AtLeastOneName)
      else
        let uniqueNames := new_Set elems in
        if negb (length uniqueNames =? length elems)%nat
        then Throw (HubError ClassError DuplicateNames)
        else
          match init_callbacks elems ∅ with
          | Throw e => Throw e
          | Return c =>
              Return {| eventNames := elems; validEvents := new_Set elems;
                        callbacks := c;
                        debugAll := false; debugFilter := None;
                        logger := DefaultLogger; onceWrappers := [] |}
          end
  | _ => Throw (HubError ClassTypeError MustBeArray)
  end.

(** The objects that the loop of [createNexusHub] creates. *)
Definition empty_objects (names : list string) (c : gmap string object)
  : gmap string object :=
  fold_left (fun c s => <[s := []]> c) names c.

(** The hub that a list of distinct names gives. *)
Definition fresh_hub (names : list string) : hub :=
  {| eventNames := VString <$> names; validEvents := VString <$> names;
     callbacks := empty_objects names ∅;
     debugAll := false; debugFilter := None;
     logger := DefaultLogger; onceWrappers := [] |}.

(** ** The methods that call no client code *)

Definition on (eventName id callback : value) (h : hub) : result unit :=
  if negb (set_has eventName (validEvents h))
  then (Throw (not_registered eventName h), h)
  else
    match id with
    | VString k =>
        if String.eqb (trim k) ""
        then (Throw (HubError ClassTypeError IdMustBeNonEmptyString), h)
        else
          match callback with
          | VFunction f =>
              match channel h eventName with
              | Some o => (Return tt, set_channel eventName (set_property k f o) h)
              | None => (Throw EngineTypeError, h)
              end
          | _ => (Throw (HubError ClassTypeError CallbackMustBeFunction), h)
          end
    | _ => (Throw (HubError ClassTypeError IdMustBeNonEmptyString), h)
    end.

Definition once (eventName id callback : value) (h : hub) : result unit :=
  if negb (set_has eventName (validEvents h))
  then (Throw (not_registered eventName h), h)
  else
    match callback with
    | VFunction f =>
        let wrapper := OnceWrapper f eventName id in
        let h1 := with_onceWrappers (onceWrappers h ++ [(f, wrapper)]) h in
        on eventName id (VFunction wrapper) h1
    | _ => (Throw (HubError ClassTypeError CallbackMustBeFunction), h)
    end.

Definition off (eventName id : value) (h : hub) : result unit :=
  if negb (set_has eventName (validEvents h))
  then (Throw (not_registered eventName h), h)
  else
    match id with
    | VUndefined => (Return tt, set_channel eventName [] h)
    | VString k =>
        match channel h eventName with
        | Some o => (Return tt, set_channel eventName (delete_property k o) h)
        | None => (Throw EngineTypeError, h)
        end
    | _ => (Throw (HubError ClassTypeError IdMustBeString), h)
    end.

Definition clear (eventName : value) (h : hub) : result unit :=
  match eventName with
  | VUndefined =>
      (Return tt, fold_left (fun h' name => set_channel name [] h') (eventNames h) h)
  | _ =>
      if negb (set_has eventName (validEvents h))
      then (Throw (not_registered eventName h), h)
      else (Return tt, set_channel eventName [] h)
  end.

(** The [reduce] of [listenerCount] and of [listeners] over [eventNames]. *)
Fixpoint reduce {A : Type} (f : A -> object -> A) (h : hub) (names : list value)
    (acc : A) : completion A :=
  match names with
  | [] => Return acc
  | name :: rest =>
      match channel h name with
      | Some o => reduce f h rest (f acc o)
      | None => Throw EngineTypeError
      end
  end.

Definition listenerCount (eventName : value) (h : hub) : completion nat :=
  match eventName with
  | VUndefined =>
      reduce (fun total o => (total + length (Object_keys o))%nat) h (eventNames h) 0%nat
  | _ =>
      if negb (set_has eventName (validEvents h))
      then Throw (not_registered eventName h)
      else
        match channel h eventName with
        | Some o => Return (length (Object_keys o))
        | None => Throw EngineTypeError
        end
  end.

Definition listeners (eventName : value) (h : hub) : completion (list func) :=
  match eventName with
  | VUndefined =>
      reduce (fun all o => all ++ Object_values o) h (eventNames h) []
  | _ =>
      if negb (set_has eventName (validEvents h))
      then Throw (not_registered eventName h)
      else
        match channel h eventName with
        | Some o => Return (Object_values o)
        | None => Throw EngineTypeError
        end
  end.

(** The method [eventNames()]: a copy of the array as it is when the
    method is called. *)
Definition hub_eventNames (h : hub) : list value := eventNames h.

(** Not a method: the caller of [createNexusHub] stores new elements in
    the array that it passed.  [validEvents] was built from the array at
    construction and is not touched. *)
Definition caller_writes (elems : list value) (h : hub) : hub :=
  {| eventNames := elems; validEvents := validEvents h;
     callbacks := callbacks h;
     debugAll := debugAll h; debugFilter := debugFilter h;
     logger := logger h; onceWrappers := onceWrappers h |}.

(** The validation loop of [setDebug] over the array it is given. *)
Fixpoint check_filter (h : hub) (enabled : list value) : option exn :=
  match enabled with
  | [] => None
  | ev :: rest =>
      if negb (set_has ev (validEvents h)) then Some (not_registered ev h)
      else check_filter h rest
  end.

Definition setDebug (enabled : value) (h : hub) : result unit :=
  match enabled with
  | VBoolean true => (Return tt, with_debug true None h)
  | VBoolean false => (Return tt, with_debug false None h)
  | VArray _ elems =>
      match check_filter h elems with
      | Some e => (Throw e, h)
      | None => (Return tt, with_debug false (Some (new_Set elems)) h)
      end
  | _ => (Throw (HubError ClassTypeError DebugMustBeBooleanOrArray), h)
  end.

Definition setLogger (fn : value) (h : hub) : result unit :=
  match fn with
  | VFunction f => (Return tt, with_logger f h)
  | _ => (Throw (HubError ClassTypeError LoggerMustBeFunction), h)
  end.

(** [debugAll || (debugFilter && debugFilter.has(eventName))] *)
Definition debug_enabled (h : hub) (eventName : value) : bool :=
  debugAll h ||
  match debugFilter h with
  | Some s => set_has eventName s
  | None => false
  end.

(** ** Emission and the calls into client code *)

Definition arg (n : nat) (args : list value) : value := nth n args VUndefined.

(** The diagnostic that closes an emission in which listeners threw. *)
Definition report (errors : list exn) (h : hub) (eventName : value) : list event :=
  if (0 <? length errors)%nat && debug_enabled h eventName
  then [ConsoleErrorCount (length errors) eventName]
  else [].

Section Dispatch.

(** How a stored function is called. *)
Variable call_function : func -> list value -> hub -> outcome unit.

(** The [forEach] of [emit] over the snapshot: each listener is called
    within [try]; what it throws is pushed on [errors] and printed. *)
Fixpoint forEach (eventName : value) (snapshot : list func) (data : value)
    (h : hub) (errors : list exn) : option (list exn * hub * list event) :=
  match snapshot with
  | [] => Some (errors, h, [])
  | cb :: rest =>
      match call_function cb [data] h with
      | None => None
      | Some (Return _, h1, inner) =>
          match forEach eventName rest data h1 errors with
          | None => None
          | Some (errors', h2, evs) =>
              Some (errors', h2, ListenerCall cb data inner (Return tt) :: evs)
          end
      | Some (Throw error, h1, inner) =>
          match forEach eventName rest data h1 (errors ++ [error]) with
          | None => None
          | Some (errors', h2, evs) =>
              Some (errors', h2,
                    ListenerCall cb data inner (Throw error)
                      :: ConsoleErrorListener eventName error :: evs)
          end
      end
  end.

Definition emit (eventName data : value) (h : hub) : outcome bool :=
  if negb (set_has eventName (validEvents h))
  then Some (Throw (not_registered eventName h), h, [])
  else
    match channel h eventName with
    | None => Some (Throw EngineTypeError, h, [])
    | Some cbs =>
        let snapshot := Object_values cbs in
        let logged :=
          if debug_enabled h eventName then
            match call_function (logger h) [eventName; data] h with
            | None => None
            | Some (r, h1, inner) =>
                Some (r, h1, [LoggerCall (logger h) eventName data inner r])
            end
          else Some (Return tt, h, [])
        in
        match logged with
        | None => None
        | Some (Throw e, h1, evs) => Some (Throw e, h1, evs)
        | Some (Return _, h1, evs) =>
            match forEach eventName snapshot data h1 [] with
            | None => None
            | Some (errors, h2, evs') =>
                Some (Return (0 <? length snapshot)%nat, h2,
                      evs ++ evs' ++ report errors h2 eventName)
            end
        end
    end.

Definition quiet {A : Type} (r : result A) : outcome unit :=
  match r with
  | (Return _, h) => Some (Return tt, h, [])
  | (Throw e, h) => Some (Throw e, h, [])
  end.

Definition pure_call {A : Type} (r : completion A) (h : hub) : outcome unit :=
  match r with
  | Return _ => Some (Return tt, h, [])
  | Throw e => Some (Throw e, h, [])
  end.

Definition exec_stmt (s : stmt) (h : hub) : outcome unit :=
  match s with
  | SOn e i c => quiet (on e i c h)
  | SOnce e i c => quiet (once e i c h)
  | SOff e i => quiet (off e i h)
  | SEmit e d =>
      match emit e d h with
      | None => None
      | Some (Return _, h', evs) => Some (Return tt, h', evs)
      | Some (Throw x, h', evs) => Some (Throw x, h', evs)
      end
  | SClear e => quiet (clear e h)
  | SListenerCount e => pure_call (listenerCount e h) h
  | SListeners e => pure_call (listeners e h) h
  | SEventNames => Some (Return tt, h, [])
  | SSetDebug v => quiet (setDebug v h)
  | SSetLogger f => quiet (setLogger f h)
  | SThrow v => Some (Throw (Thrown v), h, [])
  end.

(** The statements of a body in sequence; a throw ends the body. *)
Fixpoint exec_body (body : list stmt) (h : hub) : outcome unit :=
  match body with
  | [] => Some (Return tt, h, [])
  | s :: rest =>
      match exec_stmt s h with
      | None => None
      | Some (Throw x, h1, evs) => Some (Throw x, h1, evs)
      | Some (Return _, h1, evs) =>
          match exec_body rest h1 with
          | None => None
          | Some (r, h2, evs') => Some (r, h2, evs ++ evs')
          end
      end
  end.

End Dispatch.

(** Calling a stored function, with [depth] bounding how deep the calls may
    nest: a run whose calls nest deeper gives [None], as does a listener
    that emits to itself without end (the stack limit of the engine is not
    part of the model).  The wrapper of [once] is
    [(data) => { callback(data); hub.off(eventName, id); }]. *)
Fixpoint call (depth : nat) (f : func) (args : list value) (h : hub)
  : outcome unit :=
  match depth with
  | O => None
  | S depth' =>
      match f with
      | Closure _ body => exec_body (call depth') body h
      | OnceWrapper callback eventName id =>
          let data := arg 0 args in
          match call depth' callback [data] h with
          | None => None
          | Some (Throw e, h1, inner) =>
              Some (Throw e, h1, [CallbackCall callback data inner (Throw e)])
          | Some (Return _, h1, inner) =>
              let '(r, h2) := off eventName id h1 in
              Some (r, h2, [CallbackCall callback data inner (Return tt)])
          end
      | DefaultLogger => Some (Return tt, h, [ConsoleLog (arg 0 args) (arg 1 args)])
      end
  end.

(** [hub.emit(eventName, data)] called from outside, every call it makes
    nesting at most [depth] deep. *)
Definition hub_emit (depth : nat) : value -> value -> hub -> outcome bool :=
  emit (call depth).

(** The calls that an emission makes to listeners itself, in order: the
    [ListenerCall] events of its own trace, not those nested in a call. *)
Definition listener_calls (evs : list event) : list (func * value) :=
  omap (fun e => match e with
                 | ListenerCall cb data _ _ => Some (cb, data)
                 | _ => None
                 end) evs.

(** Likewise the calls that an emission makes to the logger. *)
Definition logger_calls (evs : list event) : list (func * value * value) :=
  omap (fun e => match e with
                 | LoggerCall f eventName data _ _ => Some (f, eventName, data)
                 | _ => None
                 end) evs.

(** Every call to a listener or to the callback of a wrapper, at any
    nesting depth, in the order of the calls. *)
Fixpoint invocations (e : event) : list (func * value) :=
  match e with
  | LoggerCall _ _ _ inner _ => flat_map invocations inner
  | ListenerCall cb data inner _ => (cb, data) :: flat_map invocations inner
  | CallbackCall cb data inner _ => (cb, data) :: flat_map invocations inner
  | _ => []
  end.

Definition calls_of (f : func) (evs : list event) : list value :=
  (List.filter (fun p => same_function f p.1) (flat_map invocations evs)).*2.

(** ** Well-formed hubs *)

(** Every member of [validEvents] is a string with an object in
    [callbacks], and every element of [eventNames] is in [validEvents]. *)
Definition hub_wf (h : hub) : bool :=
  forallb (fun v => match v with
                    | VString s => bool_decide (is_Some (callbacks h !! s))
                    | _ => false
                    end) (validEvents h)
  && forallb (fun v => set_has v (validEvents h)) (eventNames h).

(** [h'] has the names of [h], and an object wherever [h] has one. *)
Definition extends (h h' : hub) : Prop :=
  validEvents h' = validEvents h /\ eventNames h' = eventNames h /\
  forall s, is_Some (callbacks h !! s) -> is_Some (callbacks h' !! s).

(** What a caller can observe of a hub: the registry, the debug
    configuration and the logger. *)
Definition observable (h : hub)
  : gmap string object * bool * option (list value) * func :=
  (callbacks h, debugAll h, debugFilter h, logger h).

(** ** Functions that make no call into the hub *)

(** What such a function does when called: a closure with an empty body
    returns, a closure that starts with [throw] throws, the default logger
    prints and returns, and a wrapper around a callback that throws throws
    in turn before it reaches [hub.off]. *)
Fixpoint inert (f : func) : option (completion unit) :=
  match f with
  | Closure _ [] => Some (Return tt)
  | Closure _ (SThrow v :: _) => Some (Throw (Thrown v))
  | Closure _ _ => None
  | OnceWrapper cb _ _ =>
      match inert cb with
      | Some (Throw x) => Some (Throw x)
      | _ => None
      end
  | DefaultLogger => Some (Return tt)
  end.

(** The events inside a call to an inert function. *)
Fixpoint inert_events (f : func) (args : list value) : list event :=
  match f with
  | Closure _ _ => []
  | OnceWrapper cb _ _ =>
      match inert cb with
      | Some r => [CallbackCall cb (arg 0 args) (inert_events cb [arg 0 args]) r]
      | None => []
      end
  | DefaultLogger => [ConsoleLog (arg 0 args) (arg 1 args)]
  end.

(** How deep the calls nest when [f] is called and its body calls no
    [emit]. *)
Fixpoint call_depth (f : func) : nat :=
  match f with
  | Closure _ _ => 1
  | OnceWrapper cb _ _ => S (call_depth cb)
  | DefaultLogger => 1
  end.

Definition is_emit (s : stmt) : bool :=
  match s with SEmit _ _ => true | _ => false end.

(** A function whose body, and the body of the callback it wraps, calls no
    [emit]. *)
Fixpoint calm (f : func) : bool :=
  match f with
  | Closure _ body => forallb (fun s => negb (is_emit s)) body
  | OnceWrapper cb _ _ => calm cb
  | DefaultLogger => true
  end.

(** [on] for each pair of an id and a callback, in order. *)
Definition register_all (eventName : value) (regs : list (string * func))
    (h : hub) : hub :=
  fold_left (fun h' p => (on eventName (VString p.1) (VFunction p.2) h').2) regs h.

Definition max_depth (l : list func) : nat :=
  foldr (fun f m => Nat.max (call_depth f) m) 0%nat l.

Definition is_inert (f : func) : bool :=
  match inert f with Some _ => true | None => false end.

(** The logger is the first thing that the emission called, with the
    channel and the payload, and the listeners came after it. *)
Definition logged_first (h : hub) (s : string) (data : value)
    (c : completion bool) (evs : list event) : Prop :=
  exists o inner r rest,
    channel h (VString s) = Some o /\
    evs = LoggerCall (logger h) (VString s) data inner r :: rest /\
    logger_calls rest = [] /\
    (forall b, c = Return b ->
       listener_calls rest = map (fun cb => (cb, data)) (Object_values o)).

(** ** Example hubs *)

Definition noop (ref : nat) : func := Closure ref [].
Definition thrower (ref : nat) : func := Closure ref [SThrow (VString "boom")].

(** A listener that, while it is called, emits on the other channel,
    removes its neighbour, registers two more listeners and clears the
    other channel. *)
Definition busy : func :=
  Closure 1 [SEmit (VString "b") (VNumber 0);
             SOff (VString "a") (VString "second");
             SOn (VString "a") (VString "third") (VFunction (noop 3));
             SOnce (VString "a") (VString "fourth") (VFunction (noop 4));
             SClear (VString "b")].

Definition busy_hub : hub :=
  register_all (VString "a") [("first", busy); ("second", noop 2)]
    (register_all (VString "b") [("other", noop 5)] (fresh_hub ["a"; "b"])).

(** A hub with a custom logger, debugging on, and a listener that throws
    before one that does not. *)
Definition faulty_hub : hub :=
  with_debug true None
    (with_logger (noop 9)
       (register_all (VString "a") [("bad", thrower 1); ("good", noop 2)]
          (fresh_hub ["a"; "b"]))).

Definition quiet_hub : hub :=
  register_all (VString "a") [("bad", thrower 1); ("good", noop 2)]
    (fresh_hub ["a"; "b"]).

(** ** Further notions *)

(** Within each channel no id occurs twice. *)
Definition ids_unique (h : hub) : Prop :=
  forall s o, callbacks h !! s = Some o -> NoDup o.*1.

(** A property of hubs that each of the six methods that change the hub
    keeps. *)
Definition kept_by_methods (P : hub -> Prop) : Prop :=
  (forall e i c h, P h -> P (on e i c h).2) /\
  (forall e i c h, P h -> P (once e i c h).2) /\
  (forall e i h, P h -> P (off e i h).2) /\
  (forall e h, P h -> P (clear e h).2) /\
  (forall v h, P h -> P (setDebug v h).2) /\
  (forall v h, P h -> P (setLogger v h).2).

(** What the listeners called by an emission threw, in order, and the
    counts that the emission printed. *)
Definition thrown (evs : list event) : list exn :=
  omap (fun e => match e with
                 | ListenerCall _ _ _ (Throw x) => Some x
                 | _ => None
                 end) evs.

Definition printed_errors (evs : list event) : list (value * exn) :=
  omap (fun e => match e with
                 | ConsoleErrorListener eventName x => Some (eventName, x)
                 | _ => None
                 end) evs.

Definition printed_counts (evs : list event) : list (nat * value) :=
  omap (fun e => match e with
                 | ConsoleErrorCount n eventName => Some (n, eventName)
                 | _ => None
                 end) evs.

(** No element is the same value as an earlier one. *)
Fixpoint pairwise_distinct (l : list value) : bool :=
  match l with
  | [] => true
  | v :: r => forallb (fun u => negb (same_value_zero u v)) r && pairwise_distinct r
  end.

(** The logger and the listeners of the object [o] call no [emit], and
    [depth] is enough for each of them. *)
Definition runs_calm (depth : nat) (h : hub) (o : object) : bool :=
  calm (logger h) && forallb calm (Object_values o)
  && (max_depth (logger h :: Object_values o) <=? depth)%nat.

(** A logger that registers a listener and then throws. *)
Definition meddler : func :=
  Closure 9 [SOn (VString "a") (VString "z") (VFunction (noop 3));
             SThrow (VString "boom")].

(** A callback that registers a listener under the id "y" of channel "a",
    and a listener that turns debugging on and then throws. *)
Definition rebinder : func :=
  Closure 1 [SOn (VString "a") (VString "y") (VFunction (noop 2))].

Definition switcher : func :=
  Closure 1 [SSetDebug (VBoolean true); SThrow (VString "boom")].

(** * Properties *)

(** ** Objects *)

Section Objects.
Implicit Types (o : object) (k : string) (v : func).

Lemma get_set_eq k v o : get_property k (set_property k v o) = Some v.
Proof.
  induction o as [|[k' v'] o IH]; simpl.
  - by rewrite String.eqb_refl.
  - destruct (String.eqb k k') eqn:E; simpl; rewrite E; [done | apply IH].
Qed.

Lemma get_set_ne k k' v o :
  k <> k' -> get_property k' (set_property k v o) = get_property k' o.
Proof.
  intros Hne. apply String.eqb_neq in Hne. rewrite String.eqb_sym in Hne.
  induction o as [|[k0 v0] o IH]; simpl.
  - by rewrite Hne.
  - destruct (String.eqb k k0) eqn:E; simpl; [|by rewrite IH].
    apply String.eqb_eq in E. subst k0. by rewrite Hne.
Qed.

Lemma get_delete_eq k o : get_property k (delete_property k o) = None.
Proof.
  induction o as [|[k' v'] o IH]; simpl; [done|].
  destruct (String.eqb k k') eqn:E; simpl; [done | by rewrite E].
Qed.

Lemma get_delete_ne k k' o :
  k <> k' -> get_property k' (delete_property k o) = get_property k' o.
Proof.
  intros Hne. induction o as [|[k0 v0] o IH]; simpl; [done|].
  destruct (String.eqb k k0) eqn:E; simpl.
  - apply String.eqb_eq in E. subst k0.
    apply String.eqb_neq in Hne. rewrite String.eqb_sym in Hne.
    by rewrite Hne.
  - by rewrite IH.
Qed.

Lemma delete_absent k o : get_property k o = None -> delete_property k o = o.
Proof.
  induction o as [|[k' v'] o IH]; simpl; [done|].
  destruct (String.eqb k k'); [done|]. intros H. by rewrite IH.
Qed.

Lemma set_fresh k v o : get_property k o = None -> set_property k v o = o ++ [(k, v)].
Proof.
  induction o as [|[k' v'] o IH]; simpl; [done|].
  destruct (String.eqb k k'); [done|]. intros H. by rewrite IH.
Qed.

Lemma get_None_keys k o : get_property k o = None <-> k ∉ o.*1.
Proof.
  induction o as [|[k' v'] o IH]; simpl.
  - split; [intros _; apply not_elem_of_nil | done].
  - rewrite not_elem_of_cons. destruct (String.eqb k k') eqn:E.
    + apply String.eqb_eq in E. split; [done | intros [? _]; done].
    + apply String.eqb_neq in E. rewrite IH. tauto.
Qed.

Lemma insert_by_index_perm p l : insert_by_index p l ≡ₚ p :: l.
Proof.
  induction l as [|q l IH]; simpl; [done|].
  destruct (index_of p <=? index_of q)%N; [done|].
  rewrite IH. apply Permutation_swap.
Qed.

Lemma sort_by_index_perm l : sort_by_index l ≡ₚ l.
Proof.
  induction l as [|p l IH]; simpl; [done|].
  rewrite insert_by_index_perm. by rewrite IH.
Qed.

Lemma insert_by_index_sorted p l :
  StronglySorted (fun a b => (index_of a <= index_of b)%N) l ->
  StronglySorted (fun a b => (index_of a <= index_of b)%N) (insert_by_index p l).
Proof.
  induction 1 as [|q l Hs IH Hq]; simpl.
  - repeat constructor.
  - destruct (index_of p <=? index_of q)%N eqn:E.
    + apply N.leb_le in E. constructor; [by constructor|].
      constructor; [done|]. eapply Forall_impl; [exact Hq|]. simpl. lia.
    + apply N.leb_gt in E. constructor; [done|].
      rewrite insert_by_index_perm. constructor; [lia | done].
Qed.

(** The array indices come out in ascending order. *)
Lemma sort_by_index_sorted l :
  StronglySorted (fun a b => (index_of a <= index_of b)%N) (sort_by_index l).
Proof.
  induction l as [|p l IH]; simpl; [constructor|].
  by apply insert_by_index_sorted.
Qed.

(** [Object.values] and [Object.keys] visit every property once. *)
Lemma own_properties_perm o : own_properties o ≡ₚ o.
Proof.
  unfold own_properties. rewrite sort_by_index_perm.
  induction o as [|p o IH]; simpl; [done|].
  destruct (is_index p); simpl.
  - by rewrite IH.
  - rewrite <- Permutation_middle. by rewrite IH.
Qed.

Lemma length_own_properties o : length (own_properties o) = length o.
Proof. by rewrite own_properties_perm. Qed.

Lemma length_Object_keys o : length (Object_keys o) = length o.
Proof. unfold Object_keys. by rewrite length_fmap, length_own_properties. Qed.

Lemma length_Object_values o : length (Object_values o) = length o.
Proof. unfold Object_values. by rewrite length_fmap, length_own_properties. Qed.

Lemma Object_values_perm o : Object_values o ≡ₚ o.*2.
Proof. unfold Object_values. by rewrite own_properties_perm. Qed.

(** Without array indices among the keys the order is that of creation. *)
Lemma own_properties_plain o :
  forallb (fun p => negb (is_index p)) o = true -> own_properties o = o.
Proof.
  unfold own_properties. induction o as [|p o IH]; simpl; [done|].
  intros [Hp Ho]%andb_prop. destruct (is_index p); [done|]. simpl in *.
  specialize (IH Ho).
  destruct (List.filter is_index o) as [|q l] eqn:E; simpl in *.
  - by rewrite IH.
  - exfalso. assert (Hq : In q (List.filter is_index o)) by (rewrite E; left; done).
    apply filter_In in Hq as [Hin Hq].
    rewrite forallb_forall in Ho. apply Ho in Hin. by rewrite Hq in Hin.
Qed.

End Objects.

(** ** Sets of names *)

Lemma same_value_zero_string a s :
  same_value_zero a (VString s) = true <-> a = VString s.
Proof.
  destruct a; simpl; try (split; [done | discriminate]).
  rewrite String.eqb_eq. split; [by intros -> | by intros [= ->]].
Qed.

Lemma set_has_app v s t : set_has v (s ++ t) = set_has v s || set_has v t.
Proof. unfold set_has. apply existsb_app. Qed.

Lemma set_has_strings v (names : list string) :
  set_has v (VString <$> names) = true <-> exists s, v = VString s /\ s ∈ names.
Proof.
  unfold set_has. rewrite existsb_exists. split.
  - intros (u & Hin & Hu). apply list_elem_of_In, list_elem_of_fmap in Hin as (s & -> & Hs).
    apply same_value_zero_string in Hu. eauto.
  - intros (s & -> & Hs). exists (VString s). split.
    + apply list_elem_of_In, list_elem_of_fmap. eauto.
    + by apply same_value_zero_string.
Qed.

Lemma length_set_add s v : length (set_add s v) <= S (length s).
Proof. unfold set_add. destruct (set_has v s); [lia|]. rewrite length_app. simpl. lia. Qed.

Lemma length_fold_set_add l s :
  length (fold_left set_add l s) <= length s + length l.
Proof.
  revert s. induction l as [|v l IH]; intros s; simpl; [lia|].
  specialize (IH (set_add s v)). pose proof (length_set_add s v). lia.
Qed.

(** A [Set] built from strings: it keeps every name exactly when the names
    are distinct. *)
Lemma fold_set_add_strings (l acc : list string) :
  NoDup acc ->
  length (fold_left set_add (VString <$> l) (VString <$> acc))
    = (length acc + length l)%nat <->
  NoDup (acc ++ l).
Proof.
  revert acc. induction l as [|s l IH]; intros acc Hacc.
  - simpl. rewrite app_nil_r, length_fmap. split; [done | intros _; simpl; lia].
  - rewrite fmap_cons. cbn [fold_left length]. unfold set_add at 2.
    destruct (set_has (VString s) (VString <$> acc)) eqn:E.
    + apply set_has_strings in E as (s' & [= <-] & Hin). split.
      * intros Hlen. pose proof (length_fold_set_add (VString <$> l) (VString <$> acc)) as Hle.
        rewrite !length_fmap in Hle. lia.
      * intros Hnd. apply NoDup_app in Hnd as (_ & Hdis & _).
        exfalso. apply (Hdis s Hin). left.
    + assert (Hnin : s ∉ acc).
      { intros Hin. assert (set_has (VString s) (VString <$> acc) = true) as Ht
          by (apply set_has_strings; eauto). congruence. }
      replace ((VString <$> acc) ++ [VString s]) with (VString <$> (acc ++ [s]))
        by (by rewrite fmap_app).
      assert (Hacc' : NoDup (acc ++ [s])).
      { apply NoDup_app. split_and!; [done | | apply NoDup_singleton].
        intros x Hx Hx'. apply list_elem_of_singleton in Hx'. by subst. }
      replace (length acc + S (length l))%nat with (length (acc ++ [s]) + length l)%nat
        by (rewrite length_app; simpl; lia).
      rewrite (IH _ Hacc'). by rewrite <- app_assoc.
Qed.

Lemma fold_set_add_NoDup (l acc : list string) :
  NoDup (acc ++ l) ->
  fold_left set_add (VString <$> l) (VString <$> acc) = VString <$> (acc ++ l).
Proof.
  revert acc. induction l as [|s l IH]; intros acc Hnd.
  - simpl. by rewrite app_nil_r.
  - rewrite fmap_cons. cbn [fold_left]. unfold set_add at 2.
    destruct (set_has (VString s) (VString <$> acc)) eqn:E.
    + apply set_has_strings in E as (s' & [= <-] & Hin).
      apply NoDup_app in Hnd as (_ & Hdis & _). exfalso. apply (Hdis s Hin). left.
    + replace ((VString <$> acc) ++ [VString s]) with (VString <$> (acc ++ [s]))
        by (by rewrite fmap_app).
      replace (acc ++ s :: l) with ((acc ++ [s]) ++ l) in * by (by rewrite <- app_assoc).
      by apply IH.
Qed.

Lemma new_Set_strings (names : list string) :
  NoDup names -> new_Set (VString <$> names) = VString <$> names.
Proof. intros H. apply (fold_set_add_NoDup names []). done. Qed.

(** ** Construction *)

Lemma empty_objects_lookup names c s :
  empty_objects names c !! s = if bool_decide (s ∈ names) then Some [] else c !! s.
Proof.
  revert c. induction names as [|n names IH]; intros c; simpl.
  - done.
  - unfold empty_objects in *. simpl. rewrite IH.
    destruct (decide (s ∈ names)) as [Hin|Hnin].
    + rewrite !bool_decide_eq_true_2; [done | by right | done].
    + rewrite (bool_decide_eq_false_2 _ Hnin).
      destruct (decide (s = n)) as [->|Hne].
      * rewrite bool_decide_eq_true_2 by left. by rewrite lookup_insert_eq.
      * rewrite bool_decide_eq_false_2 by (rewrite elem_of_cons; tauto).
        by rewrite lookup_insert_ne.
Qed.

Lemma init_callbacks_Return elems c c' :
  init_callbacks elems c = Return c' ->
  exists names, elems = VString <$> names /\ c' = empty_objects names c.
Proof.
  revert c. induction elems as [|v elems IH]; intros c; simpl.
  - intros [= <-]. by exists [].
  - destruct v; try discriminate. intros H. apply IH in H as (names & -> & ->).
    by exists (s :: names).
Qed.

Lemma init_callbacks_strings names c :
  init_callbacks (VString <$> names) c = Return (empty_objects names c).
Proof. revert c. induction names as [|s names IH]; intros c; simpl; [done | apply IH]. Qed.

Lemma init_callbacks_Throw elems c e :
  init_callbacks elems c = Throw e -> kind_of e = Some InvalidArgument.
Proof.
  revert c. induction elems as [|v elems IH]; intros c; simpl; [done|].
  destruct v; try (intros [= <-]; done). apply IH.
Qed.

Lemma createNexusHub_Return v h :
  createNexusHub v = Return h <->
  exists ref names, v = VArray ref (VString <$> names) /\ names <> [] /\
                    NoDup names /\ h = fresh_hub names.
Proof.
  split.
  - destruct v; try discriminate. simpl.
    destruct (length elems =? 0)%nat eqn:E0; [discriminate|].
    destruct (length (new_Set elems) =? length elems)%nat eqn:E1; [|discriminate]. simpl.
    destruct (init_callbacks elems ∅) as [c|] eqn:Ei; [|discriminate].
    apply init_callbacks_Return in Ei as (names & -> & ->).
    apply Nat.eqb_eq in E1. apply Nat.eqb_neq in E0.
    rewrite length_fmap in E0, E1.
    assert (Hnd : NoDup names).
    { apply (fold_set_add_strings names []); [apply NoDup_nil_2 | done]. }
    intros [= <-]. exists ref, names. split_and!; try done.
    + intros ->. done.
    + unfold fresh_hub. by rewrite new_Set_strings.
  - intros (ref & names & -> & Hne & Hnd & ->). simpl.
    rewrite new_Set_strings, !length_fmap, Nat.eqb_refl by done. simpl.
    destruct (length names =? 0)%nat eqn:E0.
    + apply Nat.eqb_eq in E0. destruct names; done.
    + by rewrite init_callbacks_strings.
Qed.

Lemma createNexusHub_Throw v e :
  createNexusHub v = Throw e -> kind_of e = Some InvalidArgument.
Proof.
  destruct v; try (intros [= <-]; done). simpl.
  destruct (length elems =? 0)%nat; [intros [= <-]; done|].
  destruct (negb _); [intros [= <-]; done|].
  destruct (init_callbacks elems ∅) eqn:Ei; [done|].
  intros [= <-]. by apply init_callbacks_Throw in Ei.
Qed.

(** ** Well-formed hubs *)

Lemma hub_wf_declared h v :
  hub_wf h = true -> set_has v (validEvents h) = true ->
  exists s o, v = VString s /\ callbacks h !! s = Some o.
Proof.
  unfold hub_wf, set_has. intros [Hv _]%andb_prop (u & Hin & Hu)%existsb_exists.
  rewrite forallb_forall in Hv. specialize (Hv u Hin).
  destruct u; try discriminate. apply bool_decide_eq_true in Hv as [o Ho].
  apply same_value_zero_string in Hu. eauto.
Qed.

Lemma hub_wf_channel h v :
  hub_wf h = true -> set_has v (validEvents h) = true ->
  exists s o, v = VString s /\ channel h v = Some o.
Proof.
  intros Hwf Hv. destruct (hub_wf_declared h v Hwf Hv) as (s & o & -> & Ho).
  exists s, o. done.
Qed.

Lemma extends_refl h : extends h h.
Proof. done. Qed.

Lemma extends_trans h1 h2 h3 : extends h1 h2 -> extends h2 h3 -> extends h1 h3.
Proof.
  intros (Hv & He & Hc) (Hv' & He' & Hc'). split_and!; [congruence | congruence | auto].
Qed.

Lemma extends_wf h h' : hub_wf h = true -> extends h h' -> hub_wf h' = true.
Proof.
  unfold hub_wf. intros [Hv He]%andb_prop (Ev & Ee & Hc).
  rewrite Ev, Ee, He, andb_true_r.
  rewrite forallb_forall in *. intros v Hin. specialize (Hv v Hin).
  destruct v; try done. apply bool_decide_eq_true in Hv.
  apply bool_decide_eq_true. auto.
Qed.

Lemma set_channel_extends name o h : extends h (set_channel name o h).
Proof.
  destruct name; try apply extends_refl. simpl. split_and!; [done | done |].
  intros k Hk. simpl. destruct (decide (s = k)) as [->|Hne].
  - rewrite lookup_insert_eq. eauto.
  - by rewrite lookup_insert_ne.
Qed.

Lemma on_extends e i c h : extends h (on e i c h).2.
Proof.
  unfold on. repeat case_match; simpl; try apply extends_refl.
  apply set_channel_extends.
Qed.

Lemma once_extends e i c h : extends h (once e i c h).2.
Proof.
  unfold once. repeat case_match; simpl; try apply extends_refl.
  eapply extends_trans; [|apply on_extends]. done.
Qed.

Lemma off_extends e i h : extends h (off e i h).2.
Proof.
  unfold off. repeat case_match; simpl; try apply extends_refl;
    apply set_channel_extends.
Qed.

Lemma clear_extends e h : extends h (clear e h).2.
Proof.
  assert (Hfold : forall names h, extends h
            (fold_left (fun h' name => set_channel name [] h') names h)).
  { induction names as [|n names IH]; intros h0; simpl; [apply extends_refl|].
    eapply extends_trans; [apply set_channel_extends | apply IH]. }
  unfold clear. destruct e;
    try (destruct (negb _); [apply extends_refl | apply set_channel_extends]).
  apply Hfold.
Qed.

Lemma setDebug_extends v h : extends h (setDebug v h).2.
Proof. unfold setDebug. repeat case_match; simpl; done. Qed.

Lemma setLogger_extends v h : extends h (setLogger v h).2.
Proof. unfold setLogger. repeat case_match; simpl; done. Qed.

Lemma fresh_hub_wf names : hub_wf (fresh_hub names) = true.
Proof.
  unfold hub_wf, fresh_hub. simpl. apply andb_true_intro. split.
  - apply forallb_forall. intros v Hin.
    apply list_elem_of_In, list_elem_of_fmap in Hin as (s & -> & Hs).
    apply bool_decide_eq_true. rewrite empty_objects_lookup.
    rewrite bool_decide_eq_true_2 by done. eauto.
  - apply forallb_forall. intros v Hin.
    apply list_elem_of_In, list_elem_of_fmap in Hin as (s & -> & Hs).
    apply set_has_strings. eauto.
Qed.

(** Every hub that [createNexusHub] returns is well formed. *)
Lemma createNexusHub_wf v h : createNexusHub v = Return h -> hub_wf h = true.
Proof.
  intros (ref & names & _ & _ & _ & ->)%createNexusHub_Return. apply fresh_hub_wf.
Qed.

(** Calls into client code keep the names and the objects of the hub. *)
Section DispatchExtends.
Variable call_function : func -> list value -> hub -> outcome unit.
Hypothesis call_extends : forall f args h r h' evs,
  call_function f args h = Some (r, h', evs) -> extends h h'.

Lemma forEach_extends e snapshot data h errors errors' h' evs :
  forEach call_function e snapshot data h errors = Some (errors', h', evs) ->
  extends h h'.
Proof.
  revert h errors errors' evs.
  induction snapshot as [|cb rest IH]; intros h errors errors' evs; simpl.
  - intros [= _ <- _]. apply extends_refl.
  - destruct (call_function cb [data] h) as [[[r h1] inner]|] eqn:Ec; [|done].
    apply call_extends in Ec.
    destruct r;
      (destruct (forEach call_function e rest data h1 _) as [[[er h2] ev2]|] eqn:Ef;
       [|done]); intros [= _ <- _]; apply IH in Ef; by eapply extends_trans.
Qed.

Lemma emit_extends e data h r h' evs :
  emit call_function e data h = Some (r, h', evs) -> extends h h'.
Proof.
  unfold emit. destruct (negb _); [intros [= _ <- _]; apply extends_refl|].
  destruct (channel h e) as [cbs|]; [|intros [= _ <- _]; apply extends_refl].
  destruct (debug_enabled h e).
  - destruct (call_function (logger h) [e; data] h) as [[[r1 h1] inner]|] eqn:Ec; [|done].
    apply call_extends in Ec. destruct r1; [|by intros [= _ <- _]].
    destruct (forEach _ _ _ _ _ _) as [[[er h2] ev2]|] eqn:Ef; [|done].
    apply forEach_extends in Ef. intros [= _ <- _]. by eapply extends_trans.
  - destruct (forEach _ _ _ _ _ _) as [[[er h2] ev2]|] eqn:Ef; [|done].
    apply forEach_extends in Ef. by intros [= _ <- _].
Qed.

Lemma quiet_extends {A} (r : result A) h c h' evs :
  extends h r.2 -> quiet r = Some (c, h', evs) -> extends h h'.
Proof. destruct r as [[a|x] h0]; simpl; by intros H [= _ <- _]. Qed.

Lemma exec_stmt_extends s h r h' evs :
  exec_stmt call_function s h = Some (r, h', evs) -> extends h h'.
Proof.
  destruct s; simpl.
  - apply quiet_extends, on_extends.
  - apply quiet_extends, once_extends.
  - apply quiet_extends, off_extends.
  - destruct (emit _ _ _ _) as [[[c h1] ev1]|] eqn:Ee; [|done].
    apply emit_extends in Ee. destruct c; by intros [= _ <- _].
  - apply quiet_extends, clear_extends.
  - destruct (listenerCount _ _); simpl; intros [= _ <- _]; apply extends_refl.
  - destruct (listeners _ _); simpl; intros [= _ <- _]; apply extends_refl.
  - intros [= _ <- _]; apply extends_refl.
  - apply quiet_extends, setDebug_extends.
  - apply quiet_extends, setLogger_extends.
  - intros [= _ <- _]; apply extends_refl.
Qed.

Lemma exec_body_extends body h r h' evs :
  exec_body call_function body h = Some (r, h', evs) -> extends h h'.
Proof.
  revert h r h' evs. induction body as [|s body IH]; intros h r h' evs; simpl.
  - intros [= _ <- _]. apply extends_refl.
  - destruct (exec_stmt _ _ _) as [[[c h1] ev1]|] eqn:Es; [|done].
    apply exec_stmt_extends in Es. destruct c; [|by intros [= _ <- _]].
    destruct (exec_body _ _ _) as [[[c2 h2] ev2]|] eqn:Eb; [|done].
    apply IH in Eb. intros [= _ <- _]. by eapply extends_trans.
Qed.
End DispatchExtends.

Lemma call_extends depth f args h r h' evs :
  call depth f args h = Some (r, h', evs) -> extends h h'.
Proof.
  revert f args h r h' evs.
  induction depth as [|depth IH]; intros f args h r h' evs; simpl; [done|].
  destruct f as [ref body|cb e i|].
  - by apply exec_body_extends.
  - destruct (call depth cb _ h) as [[[c h1] inner]|] eqn:Ec; [|done].
    apply IH in Ec. destruct c.
    + destruct (off e i h1) as [r2 h2] eqn:Eo. intros [= _ <- _].
      eapply extends_trans; [done|]. pose proof (off_extends e i h1) as H.
      by rewrite Eo in H.
    + by intros [= _ <- _].
  - intros [= _ <- _]. apply extends_refl.
Qed.

(** Emission keeps a hub well formed, whatever the listeners do. *)
Lemma hub_emit_wf depth e data h r h' evs :
  hub_wf h = true -> hub_emit depth e data h = Some (r, h', evs) ->
  hub_wf h' = true.
Proof.
  intros Hwf He. eapply extends_wf; [done|].
  eapply emit_extends; [|done]. apply call_extends.
Qed.

(** ** The shape of an emission *)

Lemma listener_calls_app evs evs' :
  listener_calls (evs ++ evs') = listener_calls evs ++ listener_calls evs'.
Proof. apply omap_app. Qed.

Lemma logger_calls_app evs evs' :
  logger_calls (evs ++ evs') = logger_calls evs ++ logger_calls evs'.
Proof. apply omap_app. Qed.

Lemma listener_calls_report errors h e : listener_calls (report errors h e) = [].
Proof. unfold report. by destruct (_ && _). Qed.

Lemma logger_calls_report errors h e : logger_calls (report errors h e) = [].
Proof. unfold report. by destruct (_ && _). Qed.

Section DispatchShape.
Variable call_function : func -> list value -> hub -> outcome unit.

(** The loop calls the listeners of the snapshot, each once, in order,
    whatever each of them does to the hub and however it ends. *)
Lemma forEach_listener_calls e snapshot data h errors errors' h' evs :
  forEach call_function e snapshot data h errors = Some (errors', h', evs) ->
  listener_calls evs = map (fun cb => (cb, data)) snapshot.
Proof.
  revert h errors errors' h' evs.
  induction snapshot as [|cb rest IH]; intros h errors errors' h' evs; simpl.
  - by intros [= _ _ <-].
  - destruct (call_function cb [data] h) as [[[r h1] inner]|]; [|done].
    destruct r;
      (destruct (forEach call_function e rest data h1 _) as [[[er h2] ev2]|] eqn:Ef;
       [|done]); intros [= _ _ <-]; apply IH in Ef; simpl; by rewrite Ef.
Qed.

Lemma forEach_logger_calls e snapshot data h errors errors' h' evs :
  forEach call_function e snapshot data h errors = Some (errors', h', evs) ->
  logger_calls evs = [].
Proof.
  revert h errors errors' h' evs.
  induction snapshot as [|cb rest IH]; intros h errors errors' h' evs; simpl.
  - by intros [= _ _ <-].
  - destruct (call_function cb [data] h) as [[[r h1] inner]|]; [|done].
    destruct r;
      (destruct (forEach call_function e rest data h1 _) as [[[er h2] ev2]|] eqn:Ef;
       [|done]); intros [= _ _ <-]; apply IH in Ef; simpl; by rewrite Ef.
Qed.

(** What a listener throws is printed right after its call. *)
Lemma forEach_throw_printed e snapshot data h errors errors' h' evs cb d inner x :
  forEach call_function e snapshot data h errors = Some (errors', h', evs) ->
  ListenerCall cb d inner (Throw x) ∈ evs ->
  exists pre post,
    evs = pre ++ ListenerCall cb d inner (Throw x)
                  :: ConsoleErrorListener e x :: post.
Proof.
  revert h errors errors' h' evs.
  induction snapshot as [|c rest IH]; intros h errors errors' h' evs; simpl.
  - intros [= _ _ <-] Hin. by apply elem_of_nil in Hin.
  - destruct (call_function c [data] h) as [[[r h1] inn]|]; [|done].
    destruct r;
      (destruct (forEach call_function e rest data h1 _) as [[[er h2] ev2]|] eqn:Ef;
       [|done]); intros [= _ _ <-] Hin.
    + apply elem_of_cons in Hin as [Heq|Hin]; [done|].
      destruct (IH _ _ _ _ _ Ef Hin) as (pre & post & ->).
      by exists (ListenerCall c data inn (Return tt) :: pre), post.
    + apply elem_of_cons in Hin as [Heq|Hin].
      { injection Heq as -> -> -> ->. by exists [], ev2. }
      apply elem_of_cons in Hin as [Heq|Hin]; [done|].
      destruct (IH _ _ _ _ _ Ef Hin) as (pre & post & ->).
      by exists (ListenerCall c data inn (Throw e0)
                   :: ConsoleErrorListener e e0 :: pre), post.
Qed.

(** The two ways in which [emit] ends for a declared channel: the logger
    threw, or the snapshot was dispatched to and [emit] returned. *)
Lemma emit_inv e data h o c h' evs :
  set_has e (validEvents h) = true -> channel h e = Some o ->
  emit call_function e data h = Some (c, h', evs) ->
  (debug_enabled h e = true /\
   exists x inner,
     call_function (logger h) [e; data] h = Some (Throw x, h', inner) /\
     c = Throw x /\ evs = [LoggerCall (logger h) e data inner (Throw x)])
  \/
  (exists pre h1 errors evs',
     (if debug_enabled h e
      then exists inner,
        call_function (logger h) [e; data] h = Some (Return tt, h1, inner) /\
        pre = [LoggerCall (logger h) e data inner (Return tt)]
      else pre = [] /\ h1 = h) /\
     forEach call_function e (Object_values o) data h1 [] = Some (errors, h', evs') /\
     c = Return (0 <? length (Object_values o))%nat /\
     evs = pre ++ evs' ++ report errors h' e).
Proof.
  intros Hv Ho. unfold emit. rewrite Hv, Ho. simpl.
  destruct (debug_enabled h e) eqn:Ed.
  - destruct (call_function (logger h) [e; data] h) as [[[r h1] inner]|] eqn:Ec; [|done].
    destruct r as [[]|x].
    + destruct (forEach _ _ _ _ _ _) as [[[errors h2] evs']|] eqn:Ef; [|done].
      intros [= <- <- <-]. right. exists [LoggerCall (logger h) e data inner (Return tt)],
        h1, errors, evs'. split_and!; try done. by exists inner.
    + intros [= <- <- <-]. left. split; [done|]. by exists x, inner.
  - destruct (forEach _ _ _ _ _ _) as [[[errors h2] evs']|] eqn:Ef; [|done].
    intros [= <- <- <-]. right. by exists [], h, errors, evs'.
Qed.

(** An emission that returns has called exactly the snapshot. *)
Lemma emit_Return_listener_calls e data h o b h' evs :
  set_has e (validEvents h) = true -> channel h e = Some o ->
  emit call_function e data h = Some (Return b, h', evs) ->
  listener_calls evs = map (fun cb => (cb, data)) (Object_values o)
  /\ b = (0 <? length (Object_values o))%nat.
Proof.
  intros Hv Ho He.
  destruct (emit_inv _ _ _ _ _ _ _ Hv Ho He)
    as [(_ & x & inner & _ & ? & _)|(pre & h1 & errors & evs' & Hpre & Hf & [= ->] & ->)];
    [done|].
  split; [|done].
  rewrite !listener_calls_app, listener_calls_report, app_nil_r.
  rewrite (forEach_listener_calls _ _ _ _ _ _ _ _ Hf).
  destruct (debug_enabled h e).
  - by destruct Hpre as (inner & _ & ->).
  - by destruct Hpre as [-> _].
Qed.
End DispatchShape.

(** ** Runs that are sure to finish *)


(** An inert function ends as [inert] says and leaves the hub alone. *)
Lemma call_inert f r :
  inert f = Some r ->
  forall depth args h, call_depth f <= depth ->
    call depth f args h = Some (r, h, inert_events f args).
Proof.
  revert r. induction f as [ref body|cb IH e i|]; intros r Hr depth args h Hd;
    (destruct depth as [|depth]; [simpl in Hd; lia|]); simpl in *.
  - destruct body as [|s body]; [by injection Hr as <-|].
    destruct s; try discriminate. by injection Hr as <-.
  - destruct (inert cb) as [[u|x]|] eqn:Ei; try discriminate. injection Hr as <-.
    rewrite (IH (Throw x) eq_refl depth [arg 0 args] h) by lia. done.
  - by injection Hr as <-.
Qed.

Section Total.
Variable call_function : func -> list value -> hub -> outcome unit.

Lemma exec_stmt_calm s h :
  is_emit s = false -> is_Some (exec_stmt call_function s h).
Proof.
  destruct s; simpl; try done; intros _;
    repeat match goal with
           | |- is_Some (quiet ?r) => destruct r as [[?|?] ?]; simpl
           | |- is_Some (pure_call ?r _) => destruct r; simpl
           end; eauto.
Qed.

Lemma exec_body_calm body h :
  forallb (fun s => negb (is_emit s)) body = true ->
  is_Some (exec_body call_function body h).
Proof.
  revert h. induction body as [|s body IH]; intros h; simpl; [eauto|].
  intros [Hs Hb]%andb_prop. apply negb_true_iff in Hs.
  destruct (exec_stmt_calm s h Hs) as [[[c h1] ev1] ->].
  destruct c; [|eauto].
  destruct (IH h1 Hb) as [[[c2 h2] ev2] ->]. eauto.
Qed.
End Total.

(** A calm function finishes within its [call_depth]. *)
Lemma call_calm f :
  calm f = true ->
  forall depth args h, call_depth f <= depth -> is_Some (call depth f args h).
Proof.
  induction f as [ref body|cb IH e i|]; intros Hc depth args h Hd;
    (destruct depth as [|depth]; [simpl in Hd; lia|]); simpl in *.
  - by apply exec_body_calm.
  - destruct (IH Hc depth [arg 0 args] h) as [[[c h1] inner] ->]; [lia|].
    destruct c; [|eauto]. destruct (off e i h1). eauto.
  - eauto.
Qed.

Lemma forEach_calm depth e snapshot data h errors :
  forallb calm snapshot = true -> max_depth snapshot <= depth ->
  is_Some (forEach (call depth) e snapshot data h errors).
Proof.
  revert h errors. induction snapshot as [|cb rest IH]; intros h errors; simpl; [eauto|].
  intros [Hc Hr]%andb_prop Hd.
  destruct (call_calm cb Hc depth [data] h) as [[[c h1] inner] ->]; [lia|].
  destruct c.
  - destruct (IH h1 errors Hr) as [[[er h2] ev2] ->]; [lia|]. eauto.
  - destruct (IH h1 (errors ++ [e0]) Hr) as [[[er h2] ev2] ->]; [lia|]. eauto.
Qed.

(** With calm listeners and no logging, [emit] on a declared channel
    returns, and what it returns tells whether there were listeners. *)
Lemma hub_emit_calm depth e data h o :
  set_has e (validEvents h) = true -> channel h e = Some o ->
  debug_enabled h e = false ->
  forallb calm (Object_values o) = true -> max_depth (Object_values o) <= depth ->
  exists h' evs,
    hub_emit depth e data h = Some (Return (0 <? length o)%nat, h', evs).
Proof.
  intros Hv Ho Hd Hc Hm. unfold hub_emit, emit. rewrite Hv, Ho, Hd. simpl.
  destruct (forEach_calm depth e (Object_values o) data h [] Hc Hm)
    as [[[errors h2] evs] ->].
  rewrite length_Object_values. eauto.
Qed.

(** With a logger and listeners that do not emit in turn, [emit] on a
    declared channel comes to an end, whether or not debugging is on. *)
Lemma hub_emit_ends depth e data h o :
  set_has e (validEvents h) = true -> channel h e = Some o ->
  runs_calm depth h o = true ->
  exists c h' evs, hub_emit depth e data h = Some (c, h', evs).
Proof.
  intros Hv Ho [[Hl Hc]%andb_prop Hm%Nat.leb_le]%andb_prop. simpl in Hm.
  unfold hub_emit, emit. rewrite Hv, Ho. cbn [negb].
  destruct (debug_enabled h e).
  - destruct (call_calm (logger h) Hl depth [e; data] h) as [[[c h1] inner] ->]; [lia|].
    destruct c; [|eauto].
    destruct (forEach_calm depth e (Object_values o) data h1 [] Hc)
      as [[[errors h2] evs] ->]; [lia|]. eauto.
  - destruct (forEach_calm depth e (Object_values o) data h [] Hc)
      as [[[errors h2] evs] ->]; [lia|]. eauto.
Qed.

(** ** More depth changes no run that finishes *)

Section DispatchMono.
Variables call1 call2 : func -> list value -> hub -> outcome unit.
Hypothesis call_le : forall f args h r,
  call1 f args h = Some r -> call2 f args h = Some r.

Lemma forEach_mono e snapshot data h errors r :
  forEach call1 e snapshot data h errors = Some r ->
  forEach call2 e snapshot data h errors = Some r.
Proof.
  revert h errors r. induction snapshot as [|cb rest IH]; intros h errors r; simpl; [done|].
  destruct (call1 cb [data] h) as [[[c h1] inner]|] eqn:E; [|done].
  rewrite (call_le _ _ _ _ E).
  destruct c;
    (destruct (forEach call1 e rest data h1 _) as [[[er h2] ev2]|] eqn:Ef; [|done]);
    by rewrite (IH _ _ _ Ef).
Qed.

Lemma emit_mono e data h r :
  emit call1 e data h = Some r -> emit call2 e data h = Some r.
Proof.
  unfold emit. destruct (negb _); [done|].
  destruct (channel h e) as [cbs|]; [|done].
  destruct (debug_enabled h e).
  - destruct (call1 (logger h) [e; data] h) as [[[c h1] inner]|] eqn:E; [|done].
    rewrite (call_le _ _ _ _ E). destruct c; [|done].
    destruct (forEach call1 _ _ _ _ _) as [[[er h2] ev2]|] eqn:Ef; [|done].
    by rewrite (forEach_mono _ _ _ _ _ _ Ef).
  - destruct (forEach call1 _ _ _ _ _) as [[[er h2] ev2]|] eqn:Ef; [|done].
    by rewrite (forEach_mono _ _ _ _ _ _ Ef).
Qed.

Lemma exec_stmt_mono s h r :
  exec_stmt call1 s h = Some r -> exec_stmt call2 s h = Some r.
Proof.
  destruct s; simpl; try done.
  destruct (emit call1 _ _ _) as [[[c h1] ev1]|] eqn:E; [|done].
  by rewrite (emit_mono _ _ _ _ E).
Qed.

Lemma exec_body_mono body h r :
  exec_body call1 body h = Some r -> exec_body call2 body h = Some r.
Proof.
  revert h r. induction body as [|s body IH]; intros h r; simpl; [done|].
  destruct (exec_stmt call1 s h) as [[[c h1] ev1]|] eqn:E; [|done].
  rewrite (exec_stmt_mono _ _ _ E). destruct c; [|done].
  destruct (exec_body call1 body h1) as [[[c2 h2] ev2]|] eqn:Eb; [|done].
  by rewrite (IH _ _ Eb).
Qed.
End DispatchMono.

(** A call that finishes within some depth finishes in the same way
    within any greater depth. *)
Lemma call_mono depth depth' f args h r :
  depth <= depth' -> call depth f args h = Some r -> call depth' f args h = Some r.
Proof.
  revert depth' f args h r.
  induction depth as [|depth IH]; intros depth' f args h r Hle; [done|].
  destruct depth' as [|depth']; [lia|]. simpl.
  destruct f as [ref body|cb e i|]; [| |done].
  - apply exec_body_mono. intros f' args' h0 r0. apply IH. lia.
  - destruct (call depth cb _ h) as [[[c h1] inner]|] eqn:E; [|done].
    by rewrite (IH depth' _ _ _ _ ltac:(lia) E).
Qed.

Lemma hub_emit_mono depth depth' e data h r :
  depth <= depth' ->
  hub_emit depth e data h = Some r -> hub_emit depth' e data h = Some r.
Proof.
  intros Hle. apply emit_mono. intros f args h0 r0. by apply call_mono.
Qed.

(** * The claims *)

(** ** Construction *)

(** C7.  [createNexusHub] throws an error of kind InvalidArgument when its
    argument is not an array, when the array is empty, when a name occurs
    twice in it, and when one of its elements is not a string.  When it
    returns a hub, the argument was an array of names, every declared
    channel has an empty listener object, debugging is off and the logger
    is the default one that prints a time-stamped line; and it does return
    a hub for every non-empty array of distinct names. *)
Theorem createNexusHub_validates :
  (forall v, (forall ref elems, v <> VArray ref elems) ->
     createNexusHub v = Throw (HubError ClassTypeError MustBeArray) /\
     kind_of (HubError ClassTypeError MustBeArray) = Some InvalidArgument) /\
  (forall ref,
     createNexusHub (VArray ref []) = Throw (HubError ClassError AtLeastOneName) /\
     kind_of (HubError ClassError AtLeastOneName) = Some InvalidArgument) /\
  (forall ref elems i j s,
     i <> j -> elems !! i = Some (VString s) -> elems !! j = Some (VString s) ->
     exists e, createNexusHub (VArray ref elems) = Throw e /\
               kind_of e = Some InvalidArgument) /\
  (forall ref elems v,
     v ∈ elems -> typeof v <> "string" ->
     exists e, createNexusHub (VArray ref elems) = Throw e /\
               kind_of e = Some InvalidArgument) /\
  (forall v h,
     createNexusHub v = Return h ->
     (exists ref, v = VArray ref (eventNames h)) /\
     (forall name, name ∈ eventNames h -> channel h name = Some []) /\
     (forall s o, callbacks h !! s = Some o -> o = []) /\
     debugAll h = false /\ debugFilter h = None /\ logger h = DefaultLogger) /\
  (forall ref names,
     names <> [] -> NoDup names ->
     exists h, createNexusHub (VArray ref (VString <$> names)) = Return h).
Proof.
  split_and!.
  - intros v Hv. split; [|done]. destruct v; try done. by destruct (Hv ref elems).
  - done.
  - intros ref elems i j s Hij Hi Hj.
    destruct (createNexusHub (VArray ref elems)) as [h|e] eqn:E.
    + apply createNexusHub_Return in E as (ref' & names & [= _ ->] & _ & Hnd & _).
      rewrite list_lookup_fmap in Hi, Hj.
      destruct (names !! i) as [si|] eqn:Ei; [|done].
      destruct (names !! j) as [sj|] eqn:Ej; [|done].
      injection Hi as ->. injection Hj as ->.
      destruct Hij. by eapply NoDup_lookup.
    + exists e. split; [done|]. by eapply createNexusHub_Throw.
  - intros ref elems v Hin Hty.
    destruct (createNexusHub (VArray ref elems)) as [h|e] eqn:E.
    + apply createNexusHub_Return in E as (ref' & names & [= _ ->] & _ & _ & _).
      apply list_elem_of_fmap in Hin as (s & -> & _). done.
    + exists e. split; [done|]. by eapply createNexusHub_Throw.
  - intros v h (ref & names & -> & Hne & Hnd & ->)%createNexusHub_Return.
    simpl. split_and!; try done.
    + by exists ref.
    + intros name (s & -> & Hs)%list_elem_of_fmap. simpl.
      rewrite empty_objects_lookup. by rewrite bool_decide_eq_true_2.
    + intros s o. rewrite empty_objects_lookup. case_bool_decide; [|done].
      by intros [= <-].
  - intros ref names Hne Hnd. exists (fresh_hub names).
    apply createNexusHub_Return. by exists ref, names.
Qed.

Lemma createNexusHub_validates_witness :
  createNexusHub (VString "click")
    = Throw (HubError ClassTypeError MustBeArray) /\
  (exists e, createNexusHub (VArray 0 [VString "a"; VString "b"; VString "a"]) = Throw e /\
             kind_of e = Some InvalidArgument) /\
  (exists e, createNexusHub (VArray 0 [VString "a"; VNumber 7]) = Throw e /\
             kind_of e = Some InvalidArgument) /\
  (exists h, createNexusHub (VArray 0 (VString <$> ["click"; "change"])) = Return h /\
             channel h (VString "change") = Some [] /\ debugAll h = false).
Proof.
  destruct createNexusHub_validates as (H1 & _ & H3 & H4 & H5 & H6).
  split_and!.
  - apply H1. done.
  - apply (H3 0%nat _ 0%nat 2%nat "a"); [lia | reflexivity | reflexivity].
  - apply (H4 0%nat _ (VNumber 7)); [|simpl; discriminate].
    apply elem_of_cons. right. apply elem_of_cons. by left.
  - destruct (H6 0%nat ["click"; "change"]) as [h Hh];
      [discriminate | apply (bool_decide_unpack _); reflexivity |].
    exists h. split; [done|].
    destruct (H5 _ _ Hh) as ([ref Hr] & Hc & _ & Hd & _). split; [|done].
    apply Hc. injection Hr as _ <-. apply elem_of_cons. right.
    apply elem_of_cons. by left.
Defined.

(** ** Unsubscription *)

Lemma delete_property_filter k o :
  delete_property k o = List.filter (fun p => negb (String.eqb k p.1)) o.
Proof.
  induction o as [|[k' v'] o IH]; simpl; [done|].
  destruct (String.eqb k k'); simpl; by rewrite IH.
Qed.

Lemma with_callbacks_id h : with_callbacks (callbacks h) h = h.
Proof. by destruct h. Qed.

(** C8.  On a declared channel, [off(channel, id)] with a string id deletes
    the property [id] of that channel's listener object and changes nothing
    else: the other ids of the channel keep their callbacks and their
    order, the other channels keep their objects, and the names, the debug
    configuration and the logger stay.  [off(channel)] replaces only that
    channel's object by an empty one.  When no listener has the id, the
    hub is left exactly as it was.  An id that is neither undefined nor a
    string makes [off] throw an InvalidArgument error. *)
Theorem off_removes_only_its_target h s o :
  set_has (VString s) (validEvents h) = true ->
  channel h (VString s) = Some o ->
  (forall k,
     off (VString s) (VString k) h
       = (Return tt, with_callbacks (<[s := delete_property k o]> (callbacks h)) h) /\
     get_property k (delete_property k o) = None /\
     (forall k', k <> k' ->
        get_property k' (delete_property k o) = get_property k' o) /\
     delete_property k o = List.filter (fun p => negb (String.eqb k p.1)) o /\
     (forall s', s <> s' ->
        <[s := delete_property k o]> (callbacks h) !! s' = callbacks h !! s') /\
     (get_property k o = None ->
        off (VString s) (VString k) h = (Return tt, h))) /\
  (off (VString s) VUndefined h
     = (Return tt, with_callbacks (<[s := []]> (callbacks h)) h) /\
   forall s', s <> s' -> <[s := []]> (callbacks h) !! s' = callbacks h !! s') /\
  (forall id,
     id <> VUndefined -> typeof id <> "string" ->
     off (VString s) id h = (Throw (HubError ClassTypeError IdMustBeString), h) /\
     kind_of (HubError ClassTypeError IdMustBeString) = Some InvalidArgument).
Proof.
  intros Hv Ho. simpl in Ho. split_and!.
  - intros k. split_and!.
    + unfold off. rewrite Hv. simpl. by rewrite Ho.
    + apply get_delete_eq.
    + intros k' Hne. by apply get_delete_ne.
    + apply delete_property_filter.
    + intros s' Hne. by apply lookup_insert_ne.
    + intros Hk. unfold off. rewrite Hv. simpl. rewrite Ho.
      rewrite (delete_absent _ _ Hk), (insert_id _ _ _ Ho).
      by rewrite with_callbacks_id.
  - unfold off. by rewrite Hv.
  - intros s' Hne. by apply lookup_insert_ne.
  - intros id Hu Hs. split; [|done]. unfold off. rewrite Hv. simpl.
    by destruct id.
Qed.

(** ** Debug configuration *)

Lemma fold_set_add_strings_elem (l acc : list string) :
  exists names,
    fold_left set_add (VString <$> l) (VString <$> acc) = VString <$> names /\
    forall s, s ∈ names <-> s ∈ acc \/ s ∈ l.
Proof.
  revert acc. induction l as [|s l IH]; intros acc.
  - exists acc. split; [done|]. intros s. rewrite elem_of_nil. tauto.
  - rewrite fmap_cons. cbn [fold_left]. unfold set_add at 2.
    destruct (set_has (VString s) (VString <$> acc)) eqn:E.
    + apply set_has_strings in E as (s' & [= <-] & Hin).
      destruct (IH acc) as (names & -> & Hn). exists names. split; [done|].
      intros x. rewrite Hn, elem_of_cons. split; [tauto|].
      intros [?|[->|?]]; tauto.
    + replace ((VString <$> acc) ++ [VString s]) with (VString <$> (acc ++ [s]))
        by (by rewrite fmap_app).
      destruct (IH (acc ++ [s])) as (names & -> & Hn). exists names. split; [done|].
      intros x. rewrite Hn, elem_of_app, list_elem_of_singleton, elem_of_cons. tauto.
Qed.

(** Membership in [new Set(names)] is membership in [names]. *)
Lemma set_has_new_Set_strings v (names : list string) :
  set_has v (new_Set (VString <$> names)) = set_has v (VString <$> names).
Proof.
  destruct (fold_set_add_strings_elem names []) as (names' & E & Hn).
  unfold new_Set. change (@nil value) with (VString <$> @nil string). rewrite E.
  apply eq_true_iff_eq. rewrite !set_has_strings.
  split; intros (s & -> & Hs); exists s; (split; [done|]); apply Hn in Hs || apply Hn;
    rewrite ?elem_of_nil in *; tauto.
Qed.

Lemma check_filter_None h enabled :
  check_filter h enabled = None <->
  forall v, v ∈ enabled -> set_has v (validEvents h) = true.
Proof.
  induction enabled as [|u rest IH]; simpl.
  - split; [|done]. intros _ v Hv. by apply elem_of_nil in Hv.
  - destruct (set_has u (validEvents h)) eqn:E; simpl.
    + rewrite IH. split.
      * intros H v [->|Hv]%elem_of_cons; auto.
      * intros H v Hv. apply H. by right.
    + split; [done|]. intros H. rewrite H in E; [done | by left].
Qed.

Lemma check_filter_Some h enabled x :
  check_filter h enabled = Some x -> kind_of x = Some UnknownChannel.
Proof.
  induction enabled as [|u rest IH]; simpl; [done|].
  destruct (negb _); [by intros [= <-] | done].
Qed.

Lemma declared_strings h (l : list value) :
  hub_wf h = true -> (forall v, v ∈ l -> set_has v (validEvents h) = true) ->
  exists names, l = VString <$> names.
Proof.
  intros Hwf. induction l as [|v l IH]; intros Hl.
  - by exists [].
  - destruct IH as (names & ->); [intros u Hu; apply Hl; by right|].
    destruct (hub_wf_declared h v Hwf) as (s & _ & -> & _); [apply Hl; by left|].
    by exists (s :: names).
Qed.

Section Logging.
Variable call_function : func -> list value -> hub -> outcome unit.

(** With debugging enabled for the channel, the logger is the first thing
  that [emit] calls, on the hub as [emit] found it; otherwise [emit]
  does not call it. *)
Lemma emit_logger e data h o c h' evs :
set_has e (validEvents h) = true -> channel h e = Some o ->
emit call_function e data h = Some (c, h', evs) ->
if debug_enabled h e
then exists inner r h1 rest,
       call_function (logger h) [e; data] h = Some (r, h1, inner) /\
       evs = LoggerCall (logger h) e data inner r :: rest /\
       logger_calls rest = [] /\
       (forall b, c = Return b ->
          listener_calls rest = map (fun cb => (cb, data)) (Object_values o))
else logger_calls evs = [].
Proof.
intros Hv Ho He.
destruct (emit_inv _ _ _ _ _ _ _ _ Hv Ho He)
  as [(Hd & x & inner & Hc & -> & ->)
     |(pre & h1 & errors & evs' & Hpre & Hf & -> & ->)].
- rewrite Hd. by exists inner, (Throw x), h', [].
- pose proof (forEach_logger_calls _ _ _ _ _ _ _ _ _ Hf) as Hl.
  pose proof (forEach_listener_calls _ _ _ _ _ _ _ _ _ Hf) as Hc.
  destruct (debug_enabled h e).
  + destruct Hpre as (inner & Hcall & ->).
    exists inner, (Return tt), h1, (evs' ++ report errors h' e).
    split_and!; try done.
    * by rewrite logger_calls_app, Hl, logger_calls_report.
    * intros _ _. by rewrite listener_calls_app, Hc, listener_calls_report, app_nil_r.
  + destruct Hpre as [-> ->]. simpl.
    by rewrite logger_calls_app, Hl, logger_calls_report.
Qed.
End Logging.

Lemma hub_emit_logged_first depth h s data c h' evs :
  hub_wf h = true -> set_has (VString s) (validEvents h) = true ->
  debug_enabled h (VString s) = true ->
  hub_emit depth (VString s) data h = Some (c, h', evs) ->
  logged_first h s data c evs.
Proof.
  intros Hwf Hv Hd He.
  destruct (hub_wf_channel h _ Hwf Hv) as (s' & o & [= <-] & Ho).
  pose proof (emit_logger _ _ _ _ _ _ _ _ Hv Ho He) as H. rewrite Hd in H.
  destruct H as (inner & r & h1 & rest & _ & -> & Hl & Hc).
  by exists o, inner, r, rest.
Qed.

Lemma hub_emit_not_logged depth h s data c h' evs :
  hub_wf h = true -> set_has (VString s) (validEvents h) = true ->
  debug_enabled h (VString s) = false ->
  hub_emit depth (VString s) data h = Some (c, h', evs) ->
  logger_calls evs = [].
Proof.
  intros Hwf Hv Hd He.
  destruct (hub_wf_channel h _ Hwf Hv) as (s' & o & [= <-] & Ho).
  pose proof (emit_logger _ _ _ _ _ _ _ _ Hv Ho He) as H. by rewrite Hd in H.
Qed.

(** C9.  [setDebug(true)] makes every [emit] on a declared channel call the
    active logger with the channel and the payload before it calls any
    listener; [setDebug(L)], for a list [L] of declared channels, makes
    [emit] call the logger for the channels in [L] and for no other;
    [setDebug(false)] makes [emit] call the logger for none.  This holds
    of every [emit] that ends, and with a logger and listeners that do
    not emit in turn [emit] does end, in that way.  A list with an
    undeclared channel makes [setDebug] throw an UnknownChannel error,
    and an argument that is neither a boolean nor an array an
    InvalidArgument error. *)
Theorem setDebug_selects_logged_channels h :
  hub_wf h = true ->
  (setDebug (VBoolean true) h = (Return tt, with_debug true None h) /\
   (forall s depth data c h' evs,
      set_has (VString s) (validEvents h) = true ->
      hub_emit depth (VString s) data (with_debug true None h) = Some (c, h', evs) ->
      logged_first (with_debug true None h) s data c evs) /\
   (forall s o depth data,
      set_has (VString s) (validEvents h) = true ->
      channel h (VString s) = Some o ->
      runs_calm depth h o = true ->
      exists c h' evs,
        hub_emit depth (VString s) data (with_debug true None h) = Some (c, h', evs) /\
        logged_first (with_debug true None h) s data c evs)) /\
  (forall ref L,
     (forall v, v ∈ L -> set_has v (validEvents h) = true) ->
     setDebug (VArray ref L) h
       = (Return tt, with_debug false (Some (new_Set L)) h) /\
     (forall s depth data c h' evs,
        set_has (VString s) (validEvents h) = true ->
        hub_emit depth (VString s) data (with_debug false (Some (new_Set L)) h)
          = Some (c, h', evs) ->
        if set_has (VString s) L
        then logged_first (with_debug false (Some (new_Set L)) h) s data c evs
        else logger_calls evs = []) /\
     (forall s o depth data,
        set_has (VString s) (validEvents h) = true ->
        channel h (VString s) = Some o ->
        runs_calm depth h o = true ->
        exists c h' evs,
          hub_emit depth (VString s) data (with_debug false (Some (new_Set L)) h)
            = Some (c, h', evs) /\
          if set_has (VString s) L
          then logged_first (with_debug false (Some (new_Set L)) h) s data c evs
          else logger_calls evs = [])) /\
  (setDebug (VBoolean false) h = (Return tt, with_debug false None h) /\
   (forall s depth data c h' evs,
      set_has (VString s) (validEvents h) = true ->
      hub_emit depth (VString s) data (with_debug false None h) = Some (c, h', evs) ->
      logger_calls evs = []) /\
   (forall s o depth data,
      set_has (VString s) (validEvents h) = true ->
      channel h (VString s) = Some o ->
      runs_calm depth h o = true ->
      exists c h' evs,
        hub_emit depth (VString s) data (with_debug false None h) = Some (c, h', evs) /\
        logger_calls evs = [])) /\
  (forall ref L v,
     v ∈ L -> set_has v (validEvents h) = false ->
     exists x, setDebug (VArray ref L) h = (Throw x, h) /\
               kind_of x = Some UnknownChannel) /\
  (forall v,
     (forall b, v <> VBoolean b) -> (forall ref L, v <> VArray ref L) ->
     setDebug v h = (Throw (HubError ClassTypeError DebugMustBeBooleanOrArray), h) /\
     kind_of (HubError ClassTypeError DebugMustBeBooleanOrArray)
       = Some InvalidArgument).
Proof.
  intros Hwf.
  assert (Hwf' : forall a f, hub_wf (with_debug a f h) = true)
    by (intros a f; by eapply extends_wf).
  assert (Hends : forall a f s o depth data,
    set_has (VString s) (validEvents h) = true ->
    channel h (VString s) = Some o -> runs_calm depth h o = true ->
    exists c h' evs,
      hub_emit depth (VString s) data (with_debug a f h) = Some (c, h', evs)).
  { intros a f s o depth data Hv Ho Hr.
    by apply (hub_emit_ends depth (VString s) data (with_debug a f h) o). }
  assert (Hon : forall s depth data c h' evs,
    set_has (VString s) (validEvents h) = true ->
    hub_emit depth (VString s) data (with_debug true None h) = Some (c, h', evs) ->
    logged_first (with_debug true None h) s data c evs).
  { intros s depth data c h' evs Hv He.
    by refine (hub_emit_logged_first depth _ s data c h' evs (Hwf' _ _) Hv _ He). }
  assert (Hoff : forall s depth data c h' evs,
    set_has (VString s) (validEvents h) = true ->
    hub_emit depth (VString s) data (with_debug false None h) = Some (c, h', evs) ->
    logger_calls evs = []).
  { intros s depth data c h' evs Hv He.
    by refine (hub_emit_not_logged depth _ s data c h' evs (Hwf' _ _) Hv _ He). }
  assert (Hlist : forall L, (forall v, v ∈ L -> set_has v (validEvents h) = true) ->
    forall s depth data c h' evs,
      set_has (VString s) (validEvents h) = true ->
      hub_emit depth (VString s) data (with_debug false (Some (new_Set L)) h)
        = Some (c, h', evs) ->
      if set_has (VString s) L
      then logged_first (with_debug false (Some (new_Set L)) h) s data c evs
      else logger_calls evs = []).
  { intros L HL s depth data c h' evs Hv He.
    destruct (declared_strings h L Hwf HL) as (names & ->).
    destruct (set_has (VString s) (VString <$> names)) eqn:E.
    - refine (hub_emit_logged_first depth _ s data c h' evs (Hwf' _ _) Hv _ He).
      unfold debug_enabled. cbn [debugAll debugFilter with_debug orb].
      by rewrite set_has_new_Set_strings.
    - refine (hub_emit_not_logged depth _ s data c h' evs (Hwf' _ _) Hv _ He).
      unfold debug_enabled. cbn [debugAll debugFilter with_debug orb].
      by rewrite set_has_new_Set_strings. }
  split; [|split; [|split; [|split]]].
  - split; [done|]. split; [exact Hon|].
    intros s o depth data Hv Ho Hr.
    destruct (Hends true None s o depth data Hv Ho Hr) as (c & h' & evs & He).
    exists c, h', evs. split; [done|]. by eapply Hon.
  - intros ref L HL. split; [|split].
    + unfold setDebug. apply check_filter_None in HL. by rewrite HL.
    + by apply Hlist.
    + intros s o depth data Hv Ho Hr.
      destruct (Hends false (Some (new_Set L)) s o depth data Hv Ho Hr)
        as (c & h' & evs & He).
      exists c, h', evs. split; [done|]. by eapply Hlist.
  - split; [done|]. split; [exact Hoff|].
    intros s o depth data Hv Ho Hr.
    destruct (Hends false None s o depth data Hv Ho Hr) as (c & h' & evs & He).
    exists c, h', evs. split; [done|]. by eapply Hoff.
  - intros ref L v Hin Hv. unfold setDebug.
    destruct (check_filter h L) as [x|] eqn:E.
    + exists x. split; [done|]. by eapply check_filter_Some.
    + rewrite check_filter_None in E. rewrite (E v Hin) in Hv. done.
  - intros v Hb Ha. split; [|done]. destruct v; try done.
    + by destruct (Hb b).
    + by destruct (Ha ref elems).
Qed.

(** ** Emission *)

(** C3.  On a declared channel, an [emit] that returns has called the
    listeners that the channel had when [emit] was entered, each with the
    payload, whatever the listeners did to the hub while they were being
    called: registering, removing, clearing, or emitting again.  What they
    did shows in the hub that [emit] leaves, and the next [emit] on the
    channel calls the listeners of that hub.  With debugging off and
    listeners that do not emit in turn, [emit] does return. *)
Theorem emit_dispatches_to_snapshot h s data :
  hub_wf h = true ->
  set_has (VString s) (validEvents h) = true ->
  exists o,
    channel h (VString s) = Some o /\
    (forall depth b h' evs,
       hub_emit depth (VString s) data h = Some (Return b, h', evs) ->
       listener_calls evs = map (fun cb => (cb, data)) (Object_values o) /\
       forall depth' data' b' h'' evs',
         hub_emit depth' (VString s) data' h' = Some (Return b', h'', evs') ->
         exists o',
           channel h' (VString s) = Some o' /\
           listener_calls evs' = map (fun cb => (cb, data')) (Object_values o')) /\
    (debug_enabled h (VString s) = false ->
     forallb calm (Object_values o) = true ->
     forall depth, max_depth (Object_values o) <= depth ->
       exists b h' evs,
         hub_emit depth (VString s) data h = Some (Return b, h', evs)).
Proof.
  intros Hwf Hv.
  assert (Hshape : forall depth h data b h' evs,
    hub_wf h = true -> set_has (VString s) (validEvents h) = true ->
    hub_emit depth (VString s) data h = Some (Return b, h', evs) ->
    exists o, channel h (VString s) = Some o /\
              listener_calls evs = map (fun cb => (cb, data)) (Object_values o)).
  { clear. intros depth h data b h' evs Hwf Hv He.
    destruct (hub_wf_channel h _ Hwf Hv) as (s' & o & [= <-] & Ho).
    exists o. split; [done|].
    by destruct (emit_Return_listener_calls _ _ _ _ _ _ _ _ Hv Ho He). }
  destruct (hub_wf_channel h _ Hwf Hv) as (s' & o & [= <-] & Ho).
  exists o. split_and!; [done | |].
  - intros depth b h' evs He. split.
    + by destruct (emit_Return_listener_calls _ _ _ _ _ _ _ _ Hv Ho He).
    + intros depth' data' b' h'' evs' He'.
      pose proof (emit_extends _ (call_extends depth) _ _ _ _ _ _ He) as Hext.
      eapply Hshape; [by eapply extends_wf | | done].
      destruct Hext as (-> & _). done.
  - intros Hd Hc depth Hm.
    destruct (hub_emit_calm depth (VString s) data h o Hv Ho Hd Hc Hm) as (h' & evs & He).
    eauto.
Qed.

(** C4.  When a listener throws during an [emit], what it threw does not
    leave [emit], which returns [true]; every listener of the snapshot is
    still called; and right after the call [console.error] is given the
    name of the channel and what was thrown.  The logger of the hub takes
    no part in this, whichever it is. *)
Theorem emit_isolates_listener_errors depth h s data c h' evs cb d inner x :
  hub_wf h = true ->
  set_has (VString s) (validEvents h) = true ->
  hub_emit depth (VString s) data h = Some (c, h', evs) ->
  ListenerCall cb d inner (Throw x) ∈ evs ->
  c = Return true /\
  (exists o,
     channel h (VString s) = Some o /\
     listener_calls evs = map (fun cb => (cb, data)) (Object_values o)) /\
  (exists pre post,
     evs = pre ++ ListenerCall cb d inner (Throw x)
                 :: ConsoleErrorListener (VString s) x :: post).
Proof.
  intros Hwf Hv He Hin.
  destruct (hub_wf_channel h _ Hwf Hv) as (s' & o & [= <-] & Ho).
  destruct (emit_inv _ _ _ _ _ _ _ _ Hv Ho He)
    as [(Hd & y & inn & Hc & -> & ->)
       |(pre & h1 & errors & evs' & Hpre & Hf & -> & ->)].
  - apply list_elem_of_singleton in Hin. done.
  - assert (Hin' : ListenerCall cb d inner (Throw x) ∈ evs').
    { rewrite !elem_of_app in Hin. destruct Hin as [Hin|[Hin|Hin]]; [|done|].
      - destruct (debug_enabled h (VString s)).
        + destruct Hpre as (inn & _ & ->). apply list_elem_of_singleton in Hin. done.
        + destruct Hpre as [-> _]. by apply elem_of_nil in Hin.
      - unfold report in Hin. destruct (_ && _).
        + apply list_elem_of_singleton in Hin. done.
        + by apply elem_of_nil in Hin. }
    pose proof (forEach_listener_calls _ _ _ _ _ _ _ _ _ Hf) as Hcalls.
    assert (Hlc : listener_calls (pre ++ evs' ++ report errors h' (VString s))
                  = map (fun cb => (cb, data)) (Object_values o)).
    { rewrite !listener_calls_app, listener_calls_report, app_nil_r, Hcalls.
      destruct (debug_enabled h (VString s)).
      - by destruct Hpre as (inn & _ & ->).
      - by destruct Hpre as [-> _]. }
    split_and!.
    + destruct (Object_values o) as [|f fs] eqn:Eo; [|done].
      destruct (forEach_throw_printed _ _ _ _ _ _ _ _ _ _ _ _ _ Hf Hin')
        as (p & q & ->).
      rewrite listener_calls_app in Hcalls. simpl in Hcalls.
      by destruct (listener_calls p).
    + by exists o.
    + destruct (forEach_throw_printed _ _ _ _ _ _ _ _ _ _ _ _ _ Hf Hin')
        as (p & q & ->).
      exists (pre ++ p), (q ++ report errors h' (VString s)).
      by rewrite <- !app_assoc.
Qed.

(** C5.  On a declared channel, an [emit] that comes to an end returns
    [true] when the channel had a listener as [emit] was entered and
    [false] when it had none, whether or not listeners threw; the only
    other end is that the logger, called because debugging is enabled for
    the channel, threw.  With debugging off and listeners that do not emit
    in turn, [emit] does come to an end, and returns that boolean. *)
Theorem emit_returns_whether_listeners h s o data :
  set_has (VString s) (validEvents h) = true ->
  channel h (VString s) = Some o ->
  (forall depth c h' evs,
     hub_emit depth (VString s) data h = Some (c, h', evs) ->
     c = Return (0 <? length o)%nat \/
     (debug_enabled h (VString s) = true /\
      exists x inner,
        call depth (logger h) [VString s; data] h = Some (Throw x, h', inner) /\
        c = Throw x)) /\
  (debug_enabled h (VString s) = false ->
   forallb calm (Object_values o) = true ->
   forall depth, max_depth (Object_values o) <= depth ->
     exists h' evs,
       hub_emit depth (VString s) data h
         = Some (Return (0 <? length o)%nat, h', evs)).
Proof.
  intros Hv Ho. split.
  - intros depth c h' evs He.
    destruct (emit_inv _ _ _ _ _ _ _ _ Hv Ho He)
      as [(Hd & y & inn & Hc & -> & ->)
         |(pre & h1 & errors & evs' & Hpre & Hf & -> & ->)].
    + right. split; [done|]. by exists y, inn.
    + left. by rewrite length_Object_values.
  - intros Hd Hc depth Hm. by apply hub_emit_calm.
Qed.

(** ** Registration *)

Lemma on_registers h s k f o :
  set_has (VString s) (validEvents h) = true ->
  trim k <> "" ->
  channel h (VString s) = Some o ->
  on (VString s) (VString k) (VFunction f) h
    = (Return tt, set_channel (VString s) (set_property k f o) h).
Proof.
  intros Hv Hk Ho. unfold on. rewrite Hv. simpl.
  apply String.eqb_neq in Hk. rewrite Hk. simpl in Ho. by rewrite Ho.
Qed.

Lemma channel_set_channel h s o : channel (set_channel (VString s) o h) (VString s) = Some o.
Proof. simpl. apply lookup_insert_eq. Qed.

Lemma once_registers h s k f o :
  set_has (VString s) (validEvents h) = true ->
  trim k <> "" ->
  channel h (VString s) = Some o ->
  once (VString s) (VString k) (VFunction f) h
    = (Return tt,
       set_channel (VString s)
         (set_property k (OnceWrapper f (VString s) (VString k)) o)
         (with_onceWrappers
            (onceWrappers h ++ [(f, OnceWrapper f (VString s) (VString k))]) h)).
Proof.
  intros Hv Hk Ho. unfold once. rewrite Hv. cbn [negb].
  by apply (on_registers (with_onceWrappers _ h) s k _ o).
Qed.

Lemma register_all_channel h s o regs :
  set_has (VString s) (validEvents h) = true ->
  channel h (VString s) = Some o ->
  NoDup (o ++ regs).*1 ->
  Forall (fun p => trim p.1 <> "") regs ->
  channel (register_all (VString s) regs h) (VString s) = Some (o ++ regs) /\
  validEvents (register_all (VString s) regs h) = validEvents h.
Proof.
  revert h o. induction regs as [|[k f] regs IH]; intros h o Hv Ho Hnd Hk.
  - simpl. by rewrite app_nil_r.
  - apply Forall_cons in Hk as [Hk Hks]. simpl in Hk.
    cbn [register_all fold_left fst snd].
    rewrite (on_registers h s k f o Hv Hk Ho). cbn [snd].
    assert (Hfresh : get_property k o = None).
    { apply get_None_keys. rewrite fmap_app in Hnd.
      apply NoDup_app in Hnd as (_ & Hdis & _). intros Hin.
      apply (Hdis k Hin). simpl. left. }
    rewrite (set_fresh _ _ _ Hfresh).
    destruct (IH (set_channel (VString s) (o ++ [(k, f)]) h) (o ++ [(k, f)]))
      as [Hc Hval]; try done.
    + apply channel_set_channel.
    + by rewrite <- app_assoc.
    + unfold register_all in *. rewrite Hc, Hval. by rewrite <- app_assoc.
Qed.

(** C1, as amended.  [listeners(channel)] returns the callbacks of a
    declared channel in the order in which [Object.values] visits the
    channel's listener object, each listener once, and an [emit] that
    returns has called them once each in that same order.  That order
    puts the ids that are array indices first, by ascending index, and
    then the other ids as they were created.  When no id of the channel
    is an array index, it is the order in which the ids were registered:
    listeners registered by [on] under new ids come after those already
    there, in the order of the calls. *)
Theorem listeners_in_property_order h s o :
  set_has (VString s) (validEvents h) = true ->
  channel h (VString s) = Some o ->
  (listeners (VString s) h = Return (Object_values o) /\
   Object_values o ≡ₚ o.*2 /\
   forall depth data b h' evs,
     hub_emit depth (VString s) data h = Some (Return b, h', evs) ->
     listener_calls evs = map (fun cb => (cb, data)) (Object_values o)) /\
  (exists indexed,
     Object_values o
       = (indexed ++ List.filter (fun p => negb (is_index p)) o).*2 /\
     indexed ≡ₚ List.filter is_index o /\
     StronglySorted (fun a b => (index_of a <= index_of b)%N) indexed) /\
  (forall regs,
     NoDup (o ++ regs).*1 ->
     forallb (fun p => negb (is_index p)) (o ++ regs) = true ->
     Forall (fun p => trim p.1 <> "") regs ->
     listeners (VString s) (register_all (VString s) regs h)
       = Return (o ++ regs).*2 /\
     forall depth data b h' evs,
       hub_emit depth (VString s) data (register_all (VString s) regs h)
         = Some (Return b, h', evs) ->
       listener_calls evs = map (fun cb => (cb, data)) (o ++ regs).*2).
Proof.
  intros Hv Ho.
  assert (Hgen : forall h o, set_has (VString s) (validEvents h) = true ->
    channel h (VString s) = Some o ->
    listeners (VString s) h = Return (Object_values o) /\
    forall depth data b h' evs,
      hub_emit depth (VString s) data h = Some (Return b, h', evs) ->
      listener_calls evs = map (fun cb => (cb, data)) (Object_values o)).
  { clear. intros h o Hv Ho. split.
    - unfold listeners. rewrite Hv. simpl. simpl in Ho. by rewrite Ho.
    - intros depth data b h' evs He.
      by destruct (emit_Return_listener_calls _ _ _ _ _ _ _ _ Hv Ho He). }
  split; [|split].
  - destruct (Hgen h o Hv Ho) as [Hl He]. split_and!; [done | apply Object_values_perm | done].
  - exists (sort_by_index (List.filter is_index o)).
    split_and!; [done | apply sort_by_index_perm | apply sort_by_index_sorted].
  - intros regs Hnd Hplain Hk.
    destruct (register_all_channel h s o regs Hv Ho Hnd Hk) as [Hc Hval].
    destruct (Hgen (register_all (VString s) regs h) (o ++ regs)) as [Hl He];
      [by rewrite Hval | done |].
    unfold Object_values in *. by rewrite (own_properties_plain _ Hplain) in Hl, He.
Qed.

(** ** Listeners that make no call into the hub *)

Lemma forEach_inert depth e snapshot data h errors :
  (forall f, f ∈ snapshot -> is_inert f = true /\ call_depth f <= depth) ->
  exists errors' evs,
    forEach (call depth) e snapshot data h errors = Some (errors', h, evs) /\
    forall f r, f ∈ snapshot -> inert f = Some r ->
      ListenerCall f data (inert_events f [data]) r ∈ evs.
Proof.
  revert errors. induction snapshot as [|cb rest IH]; intros errors Hall.
  - exists errors, []. split; [done|]. intros f r Hf. by apply elem_of_nil in Hf.
  - destruct (Hall cb) as [Hi Hd]; [by left|].
    unfold is_inert in Hi. destruct (inert cb) as [r0|] eqn:Ei; [|done].
    simpl. rewrite (call_inert cb r0 Ei depth [data] h Hd).
    destruct r0 as [[]|x].
    + destruct (IH errors) as (errors' & evs & -> & Hin);
        [intros f Hf; apply Hall; by right|].
      eexists _, _. split; [done|].
      intros f r [->|Hf]%elem_of_cons Hr.
      * rewrite Ei in Hr. injection Hr as <-. by left.
      * right. by apply Hin.
    + destruct (IH (errors ++ [x])) as (errors' & evs & -> & Hin);
        [intros f Hf; apply Hall; by right|].
      eexists _, _. split; [done|].
      intros f r [->|Hf]%elem_of_cons Hr.
      * rewrite Ei in Hr. injection Hr as <-. by left.
      * right. right. by apply Hin.
Qed.

(** Dispatching to inert listeners leaves the hub as it was. *)
Lemma hub_emit_inert depth s data h o :
  set_has (VString s) (validEvents h) = true ->
  channel h (VString s) = Some o ->
  debug_enabled h (VString s) = false ->
  (forall f, f ∈ o.*2 -> is_inert f = true /\ call_depth f <= depth) ->
  exists evs,
    hub_emit depth (VString s) data h = Some (Return (0 <? length o)%nat, h, evs) /\
    forall f r, f ∈ o.*2 -> inert f = Some r ->
      ListenerCall f data (inert_events f [data]) r ∈ evs.
Proof.
  intros Hv Ho Hd Hall.
  assert (Hall' : forall f, f ∈ Object_values o ->
                            is_inert f = true /\ call_depth f <= depth).
  { intros f Hf. apply Hall. by rewrite <- Object_values_perm. }
  destruct (forEach_inert depth (VString s) (Object_values o) data h [] Hall')
    as (errors & evs & Hf & Hin).
  unfold hub_emit, emit. rewrite Hv, Ho, Hd. cbn [negb]. rewrite Hf.
  eexists. split; [by rewrite length_Object_values|].
  intros f r Hmem Hr. simpl. apply elem_of_app. left.
  apply Hin; [by rewrite Object_values_perm | done].
Qed.


Lemma get_property_values k v o : get_property k o = Some v -> v ∈ o.*2.
Proof.
  induction o as [|[k' v'] o IH]; simpl; [done|].
  destruct (String.eqb k k').
  - intros [= ->]. by left.
  - intros H. right. by apply IH.
Qed.


(** C6.  On a channel without listeners and with debugging off, after
    [once(channel, id, cb)], called once or twice, with a callback that
    makes no call into the hub and returns: the first [emit] returns
    [true] and calls the wrapper, which calls [cb] with the first payload;
    the channel then has no listener; the second [emit] returns [false]
    and calls nothing.  Over both emissions [cb] is called once, with the
    first payload. *)
Theorem once_fires_once h s k cb p1 p2 depth :
  set_has (VString s) (validEvents h) = true ->
  trim k <> "" ->
  channel h (VString s) = Some [] ->
  debug_enabled h (VString s) = false ->
  inert cb = Some (Return tt) ->
  S (call_depth cb) <= depth ->
  let w := OnceWrapper cb (VString s) (VString k) in
  let first := [ListenerCall w p1
                  [CallbackCall cb p1 (inert_events cb [p1]) (Return tt)]
                  (Return tt)] in
  forall h1,
    h1 = (once (VString s) (VString k) (VFunction cb) h).2 \/
    h1 = (once (VString s) (VString k) (VFunction cb)
            (once (VString s) (VString k) (VFunction cb) h).2).2 ->
    exists h2,
      hub_emit depth (VString s) p1 h1 = Some (Return true, h2, first) /\
      listenerCount (VString s) h2 = Return 0%nat /\
      hub_emit depth (VString s) p2 h2 = Some (Return false, h2, []) /\
      calls_of cb (first ++ []) = [p1].
Proof.
  intros Hv Hk Ho Hd Hcb Hdepth w first h1 Hh1.
  assert (Hshape : set_has (VString s) (validEvents h1) = true /\
                   channel h1 (VString s) = Some [(k, w)] /\
                   debug_enabled h1 (VString s) = false).
  { rewrite (once_registers h s k cb [] Hv Hk Ho) in Hh1. cbn [snd] in Hh1.
    destruct Hh1 as [->|Hh1].
    - split_and!; [done | apply channel_set_channel | done].
    - erewrite once_registers in Hh1; [| done | done | apply channel_set_channel].
      subst h1. split_and!; [done | | done].
      cbn [snd set_property]. rewrite String.eqb_refl. apply channel_set_channel. }
  destruct Hshape as (Hv1 & Ho1 & Hd1).
  assert (Hvals : Object_values [(k, w)] = [w]).
  { unfold Object_values, own_properties. simpl. by destruct (is_index (k, w)). }
  destruct depth as [|depth]; [lia|].
  assert (Hcall : call (S depth) w [p1] h1
    = Some (Return tt, set_channel (VString s) [] h1,
            [CallbackCall cb p1 (inert_events cb [p1]) (Return tt)])).
  { unfold w. cbn [call]. change (arg 0 [p1]) with p1.
    rewrite (call_inert cb _ Hcb depth [p1] h1) by lia.
    unfold off. rewrite Hv1. cbn [negb]. rewrite Ho1.
    cbn [delete_property]. by rewrite String.eqb_refl. }
  pose (h2 := set_channel (VString s) [] h1).
  assert (Hv2 : set_has (VString s) (validEvents h2) = true) by done.
  assert (Ho2 : channel h2 (VString s) = Some []) by apply channel_set_channel.
  assert (Hd2 : debug_enabled h2 (VString s) = false) by done.
  fold h2 in Hcall. clearbody h2.
  exists h2. split_and!.
  - unfold hub_emit, emit. rewrite Hv1, Ho1, Hd1, Hvals. cbn [negb forEach].
    rewrite Hcall. done.
  - unfold listenerCount. rewrite Hv2. cbn [negb]. by rewrite Ho2.
  - unfold hub_emit, emit. by rewrite Hv2, Ho2, Hd2.
  - assert (Hcases : (exists ref, cb = Closure ref []) \/ cb = DefaultLogger).
    { clear -Hcb. destruct cb as [ref [|[] body]|cb e i|]; simpl in Hcb; try done; eauto.
      by destruct (inert cb) as [[]|]. }
    unfold calls_of, first, w.
    destruct Hcases as [[ref ->]| ->]; simpl; by rewrite ?Nat.eqb_refl.
Qed.

(** ** Calls that fail *)

(** C10, as amended.  A method that throws leaves the registry, the debug
    configuration and the logger as they were.  [on], [off], [clear],
    [setDebug] and [setLogger] leave the whole hub as it was; [once] has by
    then only noted its wrapper in [onceWrappers]; [emit] for an undeclared
    channel has called nobody; [listenerCount] and [listeners] never change
    the hub.  An [emit] on a well-formed hub throws only for an undeclared
    channel or because the logger threw, and in the second case the hub
    is as the logger left it.  In particular a list with an
    undeclared channel leaves the debug configuration to [setDebug] as it
    was, and [once] with an id that is not a non-blank string registers no
    listener. *)
Theorem failed_calls_change_nothing h :
  (forall e i c x h', on e i c h = (Throw x, h') -> h' = h) /\
  (forall e i c x h',
     once e i c h = (Throw x, h') -> observable h' = observable h) /\
  (forall e i x h', off e i h = (Throw x, h') -> h' = h) /\
  (forall e x h', clear e h = (Throw x, h') -> h' = h) /\
  (forall v x h', setDebug v h = (Throw x, h') -> h' = h) /\
  (forall v x h', setLogger v h = (Throw x, h') -> h' = h) /\
  (forall call_function e r h' evs,
     exec_stmt call_function (SListenerCount e) h = Some (r, h', evs) -> h' = h) /\
  (forall call_function e r h' evs,
     exec_stmt call_function (SListeners e) h = Some (r, h', evs) -> h' = h) /\
  (forall call_function e data,
     set_has e (validEvents h) = false ->
     emit call_function e data h = Some (Throw (not_registered e h), h, [])) /\
  (forall depth e data x h' evs,
     hub_wf h = true ->
     hub_emit depth e data h = Some (Throw x, h', evs) ->
     (set_has e (validEvents h) = false /\ h' = h /\ x = not_registered e h) \/
     (debug_enabled h e = true /\
      exists inner,
        call depth (logger h) [e; data] h = Some (Throw x, h', inner))) /\
  (forall ref L v,
     v ∈ L -> set_has v (validEvents h) = false ->
     exists x, setDebug (VArray ref L) h = (Throw x, h)) /\
  (forall e i f,
     set_has e (validEvents h) = true ->
     (forall k, i = VString k -> trim k = "") ->
     exists h',
       once e i (VFunction f) h
         = (Throw (HubError ClassTypeError IdMustBeNonEmptyString), h') /\
       callbacks h' = callbacks h).
Proof.
  split_and!.
  - intros e i c x h'. unfold on. repeat case_match; congruence.
  - intros e i c x h'. unfold once, on. simpl.
    repeat case_match; intros [= _ <-]; done.
  - intros e i x h'. unfold off. repeat case_match; congruence.
  - intros e x h'. unfold clear. repeat case_match; congruence.
  - intros v x h'. unfold setDebug. repeat case_match; congruence.
  - intros v x h'. unfold setLogger. repeat case_match; congruence.
  - intros cf e r h' evs. simpl. destruct (listenerCount e h); simpl; congruence.
  - intros cf e r h' evs. simpl. destruct (listeners e h); simpl; congruence.
  - intros cf e data Hv. unfold emit. by rewrite Hv.
  - intros depth e data x h' evs Hwf He.
    destruct (set_has e (validEvents h)) eqn:Hv.
    + right. destruct (hub_wf_channel h e Hwf Hv) as (s & o & -> & Ho).
      destruct (emit_inv _ _ _ _ _ _ _ _ Hv Ho He)
        as [(Hd & y & inn & Hc & [= ->] & ->)|(pre & h1 & errors & evs' & _ & _ & ? & _)];
        [|done].
      split; [done|]. by exists inn.
    + left. unfold hub_emit, emit in He. rewrite Hv in He. simpl in He.
      by injection He as <- <- <-.
  - intros ref L v Hin Hv. unfold setDebug.
    destruct (check_filter h L) as [x|] eqn:E; [by exists x|].
    rewrite check_filter_None in E. rewrite (E v Hin) in Hv. done.
  - intros e i f Hv Hi. unfold once, on. simpl. rewrite Hv. simpl.
    destruct i; try (by eexists). rewrite (Hi s eq_refl). simpl. by eexists.
Qed.

(** * The claims on the example hubs *)

(** C1, as stated, fails: on a new hub with the channel "a", a listener
    registered under the id "2" and then another under the id "1" are
    returned by [listeners], and called by [emit], as "1" then "2". *)
Lemma listeners_order_counterexample :
  exists h0 h1 h2 h',
    createNexusHub (VArray 0 [VString "a"]) = Return h0 /\
    on (VString "a") (VString "2") (VFunction (noop 1)) h0 = (Return tt, h1) /\
    on (VString "a") (VString "1") (VFunction (noop 2)) h1 = (Return tt, h2) /\
    listeners (VString "a") h2 = Return [noop 2; noop 1] /\
    listeners (VString "a") h2 <> Return [noop 1; noop 2] /\
    hub_emit 1 (VString "a") (VNumber 0) h2
      = Some (Return true, h',
              [ListenerCall (noop 2) (VNumber 0) [] (Return tt);
               ListenerCall (noop 1) (VNumber 0) [] (Return tt)]).
Proof.
  eexists _, _, _, _. split_and!.
  - vm_compute. reflexivity.
  - vm_compute. reflexivity.
  - vm_compute. reflexivity.
  - vm_compute. reflexivity.
  - vm_compute. discriminate.
  - vm_compute. reflexivity.
Qed.

(** C10, as stated, fails for [emit]: with debugging on and a logger that
    registers a listener and then throws, [emit] throws what the logger
    threw and leaves a hub with one listener more. *)
Lemma emit_logger_throw_counterexample :
  exists h0 h1 h2 h' evs,
    createNexusHub (VArray 0 [VString "a"]) = Return h0 /\
    setLogger (VFunction meddler) h0 = (Return tt, h1) /\
    setDebug (VBoolean true) h1 = (Return tt, h2) /\
    hub_emit 1 (VString "a") (VNumber 0) h2
      = Some (Throw (Thrown (VString "boom")), h', evs) /\
    listenerCount (VString "a") h2 = Return 0%nat /\
    listenerCount (VString "a") h' = Return 1%nat /\
    observable h' <> observable h2.
Proof.
  eexists _, _, _, _, _. split_and!.
  - vm_compute. reflexivity.
  - vm_compute. reflexivity.
  - vm_compute. reflexivity.
  - vm_compute. reflexivity.
  - vm_compute. reflexivity.
  - vm_compute. reflexivity.
  - intros H. apply (f_equal (fun p => (p.1.1.1 !! "a"))) in H.
    vm_compute in H. discriminate.
Qed.

Lemma listeners_in_property_order_witness :
  listeners (VString "a")
    (register_all (VString "a") [("x", noop 1); ("y", noop 2)] (fresh_hub ["a"]))
    = Return [noop 1; noop 2].
Proof.
  destruct (listeners_in_property_order (fresh_hub ["a"]) "a" [] eq_refl eq_refl)
    as (_ & _ & H).
  destruct (H [("x", noop 1); ("y", noop 2)]) as [Hl _].
  - apply (bool_decide_unpack _). reflexivity.
  - reflexivity.
  - repeat constructor; vm_compute; discriminate.
  - exact Hl.
Defined.


Lemma emit_dispatches_to_snapshot_witness :
  exists h' evs,
    hub_emit 3 (VString "a") (VNumber 7) busy_hub = Some (Return true, h', evs) /\
    listener_calls evs = [(busy, VNumber 7); (noop 2, VNumber 7)] /\
    listeners (VString "a") h' = Return [busy; noop 3; OnceWrapper (noop 4) (VString "a") (VString "fourth")].
Proof.
  eexists _, _. split; [vm_compute; reflexivity|].
  split; [|vm_compute; reflexivity].
  destruct (emit_dispatches_to_snapshot busy_hub "a" (VNumber 7) eq_refl eq_refl)
    as (o & Ho & Hrun & _).
  vm_compute in Ho. injection Ho as <-.
  edestruct (Hrun 3%nat true) as [Hc _]; [vm_compute; reflexivity|].
  exact Hc.
Defined.

Lemma emit_isolates_listener_errors_witness :
  exists h' evs pre post,
    hub_emit 2 (VString "a") (VNumber 7) faulty_hub = Some (Return true, h', evs) /\
    evs = pre ++ ListenerCall (thrower 1) (VNumber 7) [] (Throw (Thrown (VString "boom")))
                 :: ConsoleErrorListener (VString "a") (Thrown (VString "boom")) :: post.
Proof.
  assert (He : exists h' evs,
    hub_emit 2 (VString "a") (VNumber 7) faulty_hub = Some (Return true, h', evs) /\
    ListenerCall (thrower 1) (VNumber 7) [] (Throw (Thrown (VString "boom"))) ∈ evs).
  { eexists _, _. split; [vm_compute; reflexivity|]. right. left. }
  destruct He as (h' & evs & He & Hin).
  destruct (emit_isolates_listener_errors 2 faulty_hub "a" (VNumber 7) _ h' evs
              _ _ _ _ eq_refl eq_refl He Hin) as (_ & _ & pre & post & Hevs).
  exists h', evs, pre, post. split; assumption.
Defined.

Lemma emit_returns_whether_listeners_witness :
  (exists h' evs,
     hub_emit 1 (VString "a") (VNumber 7) quiet_hub = Some (Return true, h', evs)) /\
  (exists h' evs,
     hub_emit 1 (VString "b") (VNumber 7) quiet_hub = Some (Return false, h', evs)).
Proof.
  split.
  - destruct (emit_returns_whether_listeners quiet_hub "a"
                [("bad", thrower 1); ("good", noop 2)] (VNumber 7) eq_refl eq_refl)
      as [_ H].
    apply (H eq_refl eq_refl 1%nat). simpl. lia.
  - destruct (emit_returns_whether_listeners quiet_hub "b" [] (VNumber 7)
                eq_refl eq_refl) as [_ H].
    apply (H eq_refl eq_refl 1%nat). simpl. lia.
Defined.

Lemma once_fires_once_witness :
  exists h2,
    hub_emit 2 (VString "a") (VString "p1")
      (once (VString "a") (VString "y") (VFunction (noop 1)) (fresh_hub ["a"])).2
      = Some (Return true, h2,
              [ListenerCall (OnceWrapper (noop 1) (VString "a") (VString "y"))
                 (VString "p1")
                 [CallbackCall (noop 1) (VString "p1") [] (Return tt)]
                 (Return tt)]) /\
    listenerCount (VString "a") h2 = Return 0%nat /\
    hub_emit 2 (VString "a") (VString "p2") h2 = Some (Return false, h2, []).
Proof.
  assert (Hk : trim "y" <> "") by (vm_compute; discriminate).
  assert (Hd : S (call_depth (noop 1)) <= 2) by (vm_compute; lia).
  destruct (once_fires_once (fresh_hub ["a"]) "a" "y" (noop 1)
              (VString "p1") (VString "p2") 2 eq_refl Hk eq_refl eq_refl eq_refl Hd
              _ (or_introl eq_refl))
    as (h2 & He & Hc & He' & _).
  exists h2. split_and!; assumption.
Defined.

Lemma off_removes_only_its_target_witness :
  off (VString "a") (VString "bad") quiet_hub
    = (Return tt,
       with_callbacks (<["a" := [("good", noop 2)]]> (callbacks quiet_hub)) quiet_hub) /\
  off (VString "a") (VString "absent") quiet_hub = (Return tt, quiet_hub) /\
  off (VString "a") VNull quiet_hub
    = (Throw (HubError ClassTypeError IdMustBeString), quiet_hub).
Proof.
  destruct (off_removes_only_its_target quiet_hub "a"
              [("bad", thrower 1); ("good", noop 2)] eq_refl eq_refl)
    as (Hid & _ & Hbad).
  split_and!.
  - destruct (Hid "bad") as (H & _). exact H.
  - destruct (Hid "absent") as (_ & _ & _ & _ & _ & H). apply H. reflexivity.
  - destruct (Hbad VNull) as [H _]; [discriminate | simpl; discriminate | exact H].
Defined.

Lemma setDebug_selects_logged_channels_witness :
  (exists c h' evs,
     hub_emit 1 (VString "a") (VNumber 7) (with_debug true None quiet_hub)
       = Some (c, h', evs) /\
     logged_first (with_debug true None quiet_hub) "a" (VNumber 7) c evs) /\
  (exists c h' evs,
     hub_emit 1 (VString "a") (VNumber 7)
       (with_debug false (Some (new_Set [VString "b"])) quiet_hub)
       = Some (c, h', evs) /\
     logger_calls evs = []) /\
  (exists x, setDebug (VArray 0 [VString "a"; VString "zzz"]) quiet_hub
               = (Throw x, quiet_hub) /\
             kind_of x = Some UnknownChannel) /\
  setDebug (VNumber 1) quiet_hub
    = (Throw (HubError ClassTypeError DebugMustBeBooleanOrArray), quiet_hub).
Proof.
  destruct (setDebug_selects_logged_channels quiet_hub eq_refl)
    as ((_ & _ & Hall) & Hlist & _ & Hbad & Hother).
  split_and!.
  - apply (Hall "a" [("bad", thrower 1); ("good", noop 2)] 1%nat (VNumber 7));
      reflexivity.
  - destruct (Hlist 0%nat [VString "b"]) as (_ & _ & Hrun).
    { intros v [->|Hv]%elem_of_cons; [reflexivity|]. by apply elem_of_nil in Hv. }
    apply (Hrun "a" [("bad", thrower 1); ("good", noop 2)] 1%nat (VNumber 7));
      reflexivity.
  - apply (Hbad 0%nat _ (VString "zzz")); [|reflexivity]. right. left.
  - apply Hother; discriminate.
Defined.

Lemma failed_calls_change_nothing_witness :
  (exists h',
     once (VString "a") (VString "  ") (VFunction (noop 1)) quiet_hub
       = (Throw (HubError ClassTypeError IdMustBeNonEmptyString), h') /\
     callbacks h' = callbacks quiet_hub) /\
  (exists x, setDebug (VArray 0 [VString "a"; VString "zzz"]) quiet_hub
               = (Throw x, quiet_hub)) /\
  hub_emit 1 (VString "zzz") (VNumber 7) quiet_hub
    = Some (Throw (not_registered (VString "zzz") quiet_hub), quiet_hub, []).
Proof.
  destruct (failed_calls_change_nothing quiet_hub)
    as (_ & _ & _ & _ & _ & _ & _ & _ & Hemit & _ & Hdebug & Honce).
  split_and!.
  - apply Honce; [reflexivity|]. intros k [= <-]. reflexivity.
  - apply (Hdebug 0%nat _ (VString "zzz")); [|reflexivity]. right. left.
  - apply Hemit. reflexivity.
Defined.

(** * Further properties of the methods *)

(** ** Objects, continued *)

Lemma set_set k v v' (o : object) :
  set_property k v' (set_property k v o) = set_property k v' o.
Proof.
  induction o as [|[k0 v0] o IH]; simpl.
  - by rewrite String.eqb_refl.
  - destruct (String.eqb k k0) eqn:E; simpl; rewrite E; [done | by rewrite IH].
Qed.

Lemma delete_set k v (o : object) :
  delete_property k (set_property k v o) = delete_property k o.
Proof.
  induction o as [|[k0 v0] o IH]; simpl.
  - by rewrite String.eqb_refl.
  - destruct (String.eqb k k0) eqn:E; simpl; rewrite E; [done | by rewrite IH].
Qed.

Lemma set_property_keys k v (o : object) :
  (set_property k v o).*1
    = match get_property k o with Some _ => o.*1 | None => o.*1 ++ [k] end.
Proof.
  induction o as [|[k0 v0] o IH]; [done|].
  cbn [set_property get_property]. destruct (String.eqb k k0) eqn:E.
  - apply String.eqb_eq in E. subst. by rewrite !fmap_cons.
  - rewrite !fmap_cons, IH. by destruct (get_property k o).
Qed.

Lemma length_set_property k v (o : object) :
  length (set_property k v o)
    = match get_property k o with Some _ => length o | None => S (length o) end.
Proof.
  pose proof (f_equal length (set_property_keys k v o)) as H.
  rewrite length_fmap in H. rewrite H.
  destruct (get_property k o); rewrite ?length_app, length_fmap; simpl; lia.
Qed.

Lemma delete_property_keys k (o : object) :
  (delete_property k o).*1 = List.filter (fun k' => negb (String.eqb k k')) o.*1.
Proof.
  induction o as [|[k0 v0] o IH]; [done|].
  cbn [delete_property]. rewrite fmap_cons. cbn [fst List.filter].
  destruct (String.eqb k k0); cbn [negb]; rewrite ?fmap_cons; by rewrite IH.
Qed.

Lemma length_delete_property k (o : object) :
  NoDup o.*1 ->
  length (delete_property k o)
    = match get_property k o with Some _ => pred (length o) | None => length o end.
Proof.
  induction o as [|[k0 v0] o IH]; simpl; [done|].
  intros [Hk0 Hnd]%NoDup_cons. destruct (String.eqb k k0) eqn:E.
  - apply String.eqb_eq in E. subst k0.
    apply get_None_keys in Hk0. rewrite (delete_absent _ _ Hk0). done.
  - simpl. rewrite (IH Hnd). destruct (get_property k o) eqn:Eg; [|done].
    destruct o; [done | simpl; lia].
Qed.

Lemma set_property_NoDup k v (o : object) : NoDup o.*1 -> NoDup (set_property k v o).*1.
Proof.
  intros Hnd. rewrite set_property_keys.
  destruct (get_property k o) eqn:E; [done|].
  apply NoDup_app. split_and!; [done | | apply NoDup_singleton].
  intros x Hx ->%list_elem_of_singleton. by apply get_None_keys in E.
Qed.

Lemma delete_property_NoDup k (o : object) : NoDup o.*1 -> NoDup (delete_property k o).*1.
Proof.
  rewrite delete_property_keys. induction o.*1 as [|k0 l IH]; simpl; [done|].
  intros [Hk0 Hnd]%NoDup_cons. destruct (negb _); [|by apply IH].
  apply NoDup_cons. split; [|by apply IH].
  intros Hin. apply list_elem_of_In, filter_In in Hin as [Hin _].
  by apply Hk0, list_elem_of_In.
Qed.

Lemma set_channel_twice s o o' h :
  set_channel (VString s) o' (set_channel (VString s) o h)
    = set_channel (VString s) o' h.
Proof. unfold set_channel, with_callbacks. simpl. by rewrite insert_insert_eq. Qed.

Lemma set_channel_same s o h :
  channel h (VString s) = Some o -> set_channel (VString s) o h = h.
Proof.
  simpl. intros Ho. rewrite (insert_id _ _ _ Ho). apply with_callbacks_id.
Qed.

(** ** Registration, continued *)

(** X1.  [on] checks the channel, then the id, then the callback: an
    undeclared channel gives the Error that names it and lists the valid
    names, an id that is not a string or is blank a TypeError, and a
    callback that is not a function a TypeError; in each case the hub is
    left as it was.  On a well-formed hub these are the only ways in which
    [on] throws, and [on] returns exactly when the channel is declared,
    the id a non-blank string and the callback a function: it then stores
    the callback under the id in the channel's object. *)
Theorem on_validates h e i c :
  hub_wf h = true ->
  (set_has e (validEvents h) = false ->
   on e i c h = (Throw (HubError ClassError (NotRegistered e (validEvents h))), h)) /\
  (set_has e (validEvents h) = true ->
   (forall k, i = VString k -> trim k = "") ->
   on e i c h = (Throw (HubError ClassTypeError IdMustBeNonEmptyString), h)) /\
  (set_has e (validEvents h) = true ->
   forall k, i = VString k -> trim k <> "" -> (forall f, c <> VFunction f) ->
   on e i c h = (Throw (HubError ClassTypeError CallbackMustBeFunction), h)) /\
  (forall x h', on e i c h = (Throw x, h') -> is_Some (kind_of x)) /\
  (forall h',
     on e i c h = (Return tt, h') <->
     exists s k f o,
       e = VString s /\ set_has e (validEvents h) = true /\
       i = VString k /\ trim k <> "" /\ c = VFunction f /\
       channel h e = Some o /\ h' = set_channel e (set_property k f o) h).
Proof.
  intros Hwf. split_and!.
  - intros Hv. unfold on. by rewrite Hv.
  - intros Hv Hi. unfold on. rewrite Hv. simpl.
    destruct i; try done. by rewrite (Hi s eq_refl).
  - intros Hv k -> Hk Hc. unfold on. rewrite Hv. simpl.
    apply String.eqb_neq in Hk. rewrite Hk. destruct c; try done. by destruct (Hc f).
  - intros x h'. unfold on.
    destruct (set_has e (validEvents h)) eqn:Hv; simpl; [|by intros [= <- _]].
    destruct (hub_wf_channel h e Hwf Hv) as (s & o & -> & Ho). rewrite Ho.
    repeat case_match; intros [= <- _]; done.
  - intros h'. split.
    + unfold on. destruct (set_has e (validEvents h)) eqn:Hv; simpl; [|done].
      destruct i as [| | | |k| | |]; try done.
      destruct (String.eqb (trim k) "") eqn:Hk; [done|].
      destruct c as [| | | | | | |f]; try done.
      destruct (channel h e) as [o|] eqn:Ho; [|done]. intros [= <-].
      destruct e as [| | | |s| | |]; try done.
      exists s, k, f, o. split_and!; try done. by apply String.eqb_neq.
    + intros (s & k & f & o & -> & Hv & -> & Hk & -> & Ho & ->).
      by apply on_registers.
Qed.

Lemma on_validates_witness :
  on (VString "zzz") (VString "x") (VFunction (noop 1)) quiet_hub
    = (Throw (HubError ClassError
                (NotRegistered (VString "zzz") [VString "a"; VString "b"])), quiet_hub) /\
  on (VString "a") (VString " ") (VNumber 3) quiet_hub
    = (Throw (HubError ClassTypeError IdMustBeNonEmptyString), quiet_hub) /\
  on (VString "a") (VString "x") (VNumber 3) quiet_hub
    = (Throw (HubError ClassTypeError CallbackMustBeFunction), quiet_hub).
Proof.
  split_and!.
  - apply (on_validates quiet_hub (VString "zzz") _ _ eq_refl). reflexivity.
  - apply (on_validates quiet_hub (VString "a") (VString " ") _ eq_refl); [reflexivity|].
    intros k [= <-]. reflexivity.
  - apply (on_validates quiet_hub (VString "a") (VString "x") (VNumber 3) eq_refl
             ) with (k := "x"); try reflexivity; try discriminate.
Defined.

(** X2.  Registering twice under the same channel and id is the same as
    registering the second callback alone: [on] after [on] gives the hub
    that the second [on] gives by itself.  The id then holds the second
    callback, the ids of the channel and their order are those after the
    first call, the other ids keep their callbacks and the other channels
    their objects. *)
Theorem on_last_writer_wins h s k f g o :
  set_has (VString s) (validEvents h) = true ->
  trim k <> "" ->
  channel h (VString s) = Some o ->
  on (VString s) (VString k) (VFunction g)
     (on (VString s) (VString k) (VFunction f) h).2
    = on (VString s) (VString k) (VFunction g) h /\
  exists o1 o2,
    channel (on (VString s) (VString k) (VFunction f) h).2 (VString s) = Some o1 /\
    channel (on (VString s) (VString k) (VFunction g) h).2 (VString s) = Some o2 /\
    get_property k o2 = Some g /\
    o2.*1 = o1.*1 /\
    (forall k', k <> k' -> get_property k' o2 = get_property k' o) /\
    (forall s', s <> s' ->
       callbacks (on (VString s) (VString k) (VFunction g) h).2 !! s'
         = callbacks h !! s').
Proof.
  intros Hv Hk Ho.
  rewrite (on_registers h s k f o Hv Hk Ho). cbn [snd].
  rewrite (on_registers h s k g o Hv Hk Ho). cbn [snd].
  split.
  - rewrite (on_registers _ s k g (set_property k f o)); try done.
    + by rewrite set_channel_twice, set_set.
    + apply channel_set_channel.
  - exists (set_property k f o), (set_property k g o).
    rewrite !channel_set_channel. split_and!; try done.
    + apply get_set_eq.
    + by rewrite !set_property_keys.
    + intros k' Hne. by apply get_set_ne.
    + intros s' Hne. simpl. by apply lookup_insert_ne.
Qed.

Lemma on_last_writer_wins_witness :
  on (VString "a") (VString "bad") (VFunction (noop 7))
     (on (VString "a") (VString "bad") (VFunction (noop 6)) quiet_hub).2
    = on (VString "a") (VString "bad") (VFunction (noop 7)) quiet_hub.
Proof.
  assert (Hk : trim "bad" <> "") by (vm_compute; discriminate).
  apply (on_last_writer_wins quiet_hub "a" "bad" (noop 6) (noop 7)
           [("bad", thrower 1); ("good", noop 2)] eq_refl Hk eq_refl).
Defined.

(** X3.  [off(channel, id)] after [on(channel, id, cb)] gives the hub that
    [off(channel, id)] gives by itself: whatever was registered under the
    id before [on] is not brought back.  When the id was free, [on] then
    [off] gives back the hub as it was. *)
Theorem on_then_off h s k f o :
  set_has (VString s) (validEvents h) = true ->
  trim k <> "" ->
  channel h (VString s) = Some o ->
  off (VString s) (VString k) (on (VString s) (VString k) (VFunction f) h).2
    = off (VString s) (VString k) h /\
  (get_property k o = None ->
   off (VString s) (VString k) (on (VString s) (VString k) (VFunction f) h).2
     = (Return tt, h)).
Proof.
  intros Hv Hk Ho.
  assert (Heq : off (VString s) (VString k)
                  (on (VString s) (VString k) (VFunction f) h).2
                = off (VString s) (VString k) h).
  { rewrite (on_registers h s k f o Hv Hk Ho). cbn [snd].
    assert (Hv1 : set_has (VString s)
              (validEvents (set_channel (VString s) (set_property k f o) h)) = true)
      by done.
    unfold off. rewrite Hv1, Hv. cbn [negb].
    rewrite channel_set_channel, Ho, delete_set.
    by rewrite set_channel_twice. }
  split; [done|]. intros Hfree. rewrite Heq.
  unfold off. rewrite Hv. cbn [negb]. rewrite Ho, (delete_absent _ _ Hfree).
  by rewrite set_channel_same.
Qed.

Lemma on_then_off_witness :
  off (VString "a") (VString "new")
      (on (VString "a") (VString "new") (VFunction (noop 7)) quiet_hub).2
    = (Return tt, quiet_hub).
Proof.
  assert (Hk : trim "new" <> "") by (vm_compute; discriminate).
  apply (on_then_off quiet_hub "a" "new" (noop 7)
           [("bad", thrower 1); ("good", noop 2)] eq_refl Hk eq_refl).
  reflexivity.
Defined.

(** ** What every emission keeps *)

Lemma quiet_snd {A} (r : result A) c h' evs :
  quiet r = Some (c, h', evs) -> h' = r.2.
Proof. destruct r as [[a|x] h0]; simpl; by intros [= _ <- _]. Qed.

Section DispatchInvariant.
Variable P : hub -> Prop.
Hypothesis methods_keep : kept_by_methods P.
Variable call_function : func -> list value -> hub -> outcome unit.
Hypothesis call_keeps : forall f args h r h' evs,
  P h -> call_function f args h = Some (r, h', evs) -> P h'.

Lemma forEach_keeps e snapshot data h errors errors' h' evs :
  P h ->
  forEach call_function e snapshot data h errors = Some (errors', h', evs) ->
  P h'.
Proof.
  revert h errors errors' evs.
  induction snapshot as [|cb rest IH]; intros h errors errors' evs HP; simpl.
  - by intros [= _ <- _].
  - destruct (call_function cb [data] h) as [[[r h1] inner]|] eqn:Ec; [|done].
    apply call_keeps in Ec; [|done].
    destruct r;
      (destruct (forEach call_function e rest data h1 _) as [[[er h2] ev2]|] eqn:Ef;
       [|done]); intros [= _ <- _]; by eapply IH.
Qed.

Lemma emit_keeps e data h r h' evs :
  P h -> emit call_function e data h = Some (r, h', evs) -> P h'.
Proof.
  intros HP. unfold emit. destruct (negb _); [by intros [= _ <- _]|].
  destruct (channel h e) as [cbs|]; [|by intros [= _ <- _]].
  destruct (debug_enabled h e).
  - destruct (call_function (logger h) [e; data] h) as [[[r1 h1] inner]|] eqn:Ec; [|done].
    apply call_keeps in Ec; [|done]. destruct r1; [|by intros [= _ <- _]].
    destruct (forEach _ _ _ _ _ _) as [[[er h2] ev2]|] eqn:Ef; [|done].
    intros [= _ <- _]. by eapply forEach_keeps.
  - destruct (forEach _ _ _ _ _ _) as [[[er h2] ev2]|] eqn:Ef; [|done].
    intros [= _ <- _]. by eapply forEach_keeps.
Qed.

Lemma exec_stmt_keeps s h r h' evs :
  P h -> exec_stmt call_function s h = Some (r, h', evs) -> P h'.
Proof.
  destruct methods_keep as (Hon & Honce & Hoff & Hclear & Hdebug & Hlogger).
  intros HP. destruct s; simpl.
  - intros ->%quiet_snd. by apply Hon.
  - intros ->%quiet_snd. by apply Honce.
  - intros ->%quiet_snd. by apply Hoff.
  - destruct (emit _ _ _ _) as [[[c h1] ev1]|] eqn:Ee; [|done].
    apply emit_keeps in Ee; [|done]. destruct c; by intros [= _ <- _].
  - intros ->%quiet_snd. by apply Hclear.
  - destruct (listenerCount _ _); simpl; by intros [= _ <- _].
  - destruct (listeners _ _); simpl; by intros [= _ <- _].
  - by intros [= _ <- _].
  - intros ->%quiet_snd. by apply Hdebug.
  - intros ->%quiet_snd. by apply Hlogger.
  - by intros [= _ <- _].
Qed.

Lemma exec_body_keeps body h r h' evs :
  P h -> exec_body call_function body h = Some (r, h', evs) -> P h'.
Proof.
  revert h r h' evs. induction body as [|s body IH]; intros h r h' evs HP; simpl.
  - by intros [= _ <- _].
  - destruct (exec_stmt _ _ _) as [[[c h1] ev1]|] eqn:Es; [|done].
    apply exec_stmt_keeps in Es; [|done]. destruct c; [|by intros [= _ <- _]].
    destruct (exec_body _ _ _) as [[[c2 h2] ev2]|] eqn:Eb; [|done].
    intros [= _ <- _]. by eapply IH.
Qed.
End DispatchInvariant.

Lemma call_keeps_invariant (P : hub -> Prop) :
  kept_by_methods P ->
  forall depth f args h r h' evs,
    P h -> call depth f args h = Some (r, h', evs) -> P h'.
Proof.
  intros HP. induction depth as [|depth IH]; intros f args h r h' evs Hh; simpl; [done|].
  destruct f as [ref body|cb e i|].
  - by apply (exec_body_keeps P HP (call depth) IH).
  - destruct (call depth cb _ h) as [[[c h1] inner]|] eqn:Ec; [|done].
    apply IH in Ec; [|done]. destruct c; [|by intros [= _ <- _]].
    destruct (off e i h1) as [r2 h2] eqn:Eo. intros [= _ <- _].
    destruct HP as (_ & _ & Hoff & _). specialize (Hoff e i h1 Ec).
    by rewrite Eo in Hoff.
  - by intros [= _ <- _].
Qed.

Lemma set_channel_ids_unique name o h :
  ids_unique h -> NoDup o.*1 -> ids_unique (set_channel name o h).
Proof.
  intros Hu Ho. destruct name; try done. intros k o' Hk. simpl in Hk.
  destruct (decide (s = k)) as [->|Hne].
  - rewrite lookup_insert_eq in Hk. by injection Hk as <-.
  - rewrite lookup_insert_ne in Hk by done. by eapply Hu.
Qed.

Lemma channel_ids_unique h e o : ids_unique h -> channel h e = Some o -> NoDup o.*1.
Proof. intros Hu. destruct e; try done. simpl. apply Hu. Qed.

Lemma on_ids_unique e i c h : ids_unique h -> ids_unique (on e i c h).2.
Proof.
  intros Hu. unfold on. repeat case_match; simpl; try done.
  apply set_channel_ids_unique; [done|].
  apply set_property_NoDup. by eapply channel_ids_unique.
Qed.

Lemma ids_unique_kept : kept_by_methods ids_unique.
Proof.
  split_and!.
  - apply on_ids_unique.
  - intros e i c h Hu. unfold once. repeat case_match; simpl; try done.
    by apply (on_ids_unique _ _ _ (with_onceWrappers _ h)).
  - intros e i h Hu. unfold off. repeat case_match; simpl; try done.
    + apply set_channel_ids_unique; [done | apply NoDup_nil_2].
    + apply set_channel_ids_unique; [done|].
      apply delete_property_NoDup. by eapply channel_ids_unique.
  - intros e h Hu.
    assert (Hfold : forall names h, ids_unique h -> ids_unique
              (fold_left (fun h' name => set_channel name [] h') names h)).
    { induction names as [|n names IH]; intros h0 H0; simpl; [done|].
      apply IH, set_channel_ids_unique; [done | apply NoDup_nil_2]. }
    unfold clear. destruct e;
      try (destruct (negb _);
           [exact Hu | apply set_channel_ids_unique; [exact Hu | apply NoDup_nil_2]]).
    by apply Hfold.
  - intros v h Hu. unfold setDebug. repeat case_match; simpl; done.
  - intros v h Hu. unfold setLogger. repeat case_match; simpl; done.
Qed.

(** X4.  Within a channel an id never names two listeners: this holds of
    the hub that [createNexusHub] returns, every method keeps it, and so
    does every emission, whatever the listeners and the logger do to the
    hub.  Hence [Object.keys] of a channel's object never repeats an id. *)
Theorem ids_stay_unique :
  (forall v h, createNexusHub v = Return h -> ids_unique h) /\
  kept_by_methods ids_unique /\
  (forall depth e data h r h' evs,
     ids_unique h -> hub_emit depth e data h = Some (r, h', evs) -> ids_unique h') /\
  (forall h e o,
     ids_unique h -> channel h e = Some o -> NoDup (Object_keys o)).
Proof.
  split_and!.
  - intros v h (ref & names & _ & _ & _ & ->)%createNexusHub_Return s o.
    simpl. rewrite empty_objects_lookup. case_bool_decide; [|done].
    intros [= <-]. apply NoDup_nil_2.
  - apply ids_unique_kept.
  - intros depth e data h r h' evs Hu He.
    eapply (emit_keeps ids_unique (call depth)); [|done|done].
    intros f args h0 r0 h0' evs0. apply call_keeps_invariant, ids_unique_kept.
  - intros h e o Hu Ho. unfold Object_keys. rewrite own_properties_perm.
    by eapply channel_ids_unique.
Qed.

Lemma ids_stay_unique_witness :
  exists h' evs,
    hub_emit 3 (VString "a") (VNumber 7) busy_hub = Some (Return true, h', evs) /\
    ids_unique h'.
Proof.
  destruct ids_stay_unique as (Hnew & (Hon & _) & Hemit & _).
  assert (Hb : ids_unique busy_hub).
  { unfold busy_hub, register_all. simpl fold_left.
    repeat apply Hon. apply (Hnew (VArray 0 (VString <$> ["a"; "b"]))). reflexivity. }
  eexists _, _. split; [vm_compute; reflexivity|].
  eapply (Hemit 3%nat (VString "a") (VNumber 7) busy_hub); [exact Hb|].
  vm_compute. reflexivity.
Defined.

(** ** Counting and listing *)

(** X5.  On a declared channel whose ids are distinct, [listenerCount]
    is the number of ids; [on] raises it by one for a new id and leaves
    it for an id already there; [off] with an id lowers it by one when
    the id is there and leaves it otherwise; [off] without an id brings
    it to zero. *)
Theorem listenerCount_tracks_ids h s k f o :
  set_has (VString s) (validEvents h) = true ->
  trim k <> "" ->
  channel h (VString s) = Some o ->
  NoDup o.*1 ->
  listenerCount (VString s) h = Return (length o) /\
  listenerCount (VString s) (on (VString s) (VString k) (VFunction f) h).2
    = Return (match get_property k o with
              | Some _ => length o
              | None => S (length o)
              end) /\
  listenerCount (VString s) (off (VString s) (VString k) h).2
    = Return (match get_property k o with
              | Some _ => pred (length o)
              | None => length o
              end) /\
  listenerCount (VString s) (off (VString s) VUndefined h).2 = Return 0%nat.
Proof.
  intros Hv Hk Ho Hnd.
  assert (Hcount : forall h' o', set_has (VString s) (validEvents h') = true ->
            channel h' (VString s) = Some o' ->
            listenerCount (VString s) h' = Return (length o')).
  { clear. intros h' o' Hv Ho. unfold listenerCount. rewrite Hv. cbn [negb].
    by rewrite Ho, length_Object_keys. }
  split_and!.
  - by apply Hcount.
  - rewrite (on_registers h s k f o Hv Hk Ho). cbn [snd].
    rewrite (Hcount _ (set_property k f o)); [| done | apply channel_set_channel].
    by rewrite length_set_property.
  - unfold off. rewrite Hv. cbn [negb]. rewrite Ho. cbn [snd].
    rewrite (Hcount _ (delete_property k o)); [| done | apply channel_set_channel].
    by rewrite length_delete_property.
  - unfold off. rewrite Hv. cbn [negb snd].
    by rewrite (Hcount _ []); [| done | apply channel_set_channel].
Qed.

Lemma listenerCount_tracks_ids_witness :
  listenerCount (VString "a") quiet_hub = Return 2%nat /\
  listenerCount (VString "a")
    (on (VString "a") (VString "new") (VFunction (noop 7)) quiet_hub).2 = Return 3%nat /\
  listenerCount (VString "a") (off (VString "a") (VString "new") quiet_hub).2
    = Return 2%nat.
Proof.
  assert (Hk : trim "new" <> "") by (vm_compute; discriminate).
  assert (Hnd : NoDup [("bad", thrower 1); ("good", noop 2)].*1)
    by (apply (bool_decide_unpack _); reflexivity).
  destruct (listenerCount_tracks_ids quiet_hub "a" "new" (noop 7)
              [("bad", thrower 1); ("good", noop 2)] eq_refl Hk eq_refl Hnd)
    as (H1 & H2 & H3 & _).
  split_and!; [exact H1 | exact H2 | exact H3].
Defined.

Lemma reduce_objects {A} (f : A -> object -> A) h names objs acc :
  Forall2 (fun name o => channel h name = Some o) names objs ->
  reduce f h names acc = Return (fold_left f objs acc).
Proof.
  intros H. revert acc. induction H as [|name o names objs Ho _ IH]; intros acc; simpl.
  - done.
  - rewrite Ho. apply IH.
Qed.

Lemma fold_left_count objs n :
  fold_left (fun total o => (total + length (Object_keys o))%nat) objs n
    = (n + sum_list (length <$> objs))%nat.
Proof.
  revert n. induction objs as [|o objs IH]; intros n.
  - simpl. lia.
  - rewrite fmap_cons. cbn [fold_left sum_list sum_list_with].
    rewrite IH, length_Object_keys. unfold id. lia.
Qed.

Lemma fold_left_values objs (l : list func) :
  fold_left (fun all o => all ++ Object_values o) objs l
    = l ++ concat (Object_values <$> objs).
Proof.
  revert l. induction objs as [|o objs IH]; intros l.
  - simpl. by rewrite app_nil_r.
  - rewrite fmap_cons. cbn [fold_left concat]. by rewrite IH, <- app_assoc.
Qed.

Lemma hub_wf_objects h :
  hub_wf h = true ->
  exists objs, Forall2 (fun name o => channel h name = Some o) (eventNames h) objs.
Proof.
  intros Hwf. pose proof Hwf as [_ He]%andb_prop. rewrite forallb_forall in He.
  induction (eventNames h) as [|name names IH].
  - by exists [].
  - destruct IH as [objs Hobjs]; [intros v Hv; apply He; by right|].
    destruct (hub_wf_channel h name Hwf) as (s & o & -> & Ho); [apply He; by left|].
    exists (o :: objs). by constructor.
Qed.

(** X6.  On a well-formed hub, [listenerCount()] and [listeners()] without
    a channel never throw: the count is the sum of the numbers of
    listeners of the declared channels, the list is the concatenation of
    the channels' listeners in the order in which the channels were
    declared, and the count is the length of the list.  With a declared
    channel, [listenerCount(channel)] is the length of
    [listeners(channel)]. *)
Theorem counts_agree_with_listeners h :
  hub_wf h = true ->
  (exists objs,
     Forall2 (fun name o => channel h name = Some o) (eventNames h) objs /\
     listenerCount VUndefined h = Return (sum_list (length <$> objs)) /\
     listeners VUndefined h = Return (concat (Object_values <$> objs)) /\
     length (concat (Object_values <$> objs)) = sum_list (length <$> objs)) /\
  (forall s, set_has (VString s) (validEvents h) = true ->
     exists n l,
       listenerCount (VString s) h = Return n /\
       listeners (VString s) h = Return l /\
       length l = n).
Proof.
  intros Hwf. split.
  - destruct (hub_wf_objects h Hwf) as [objs Hobjs]. exists objs.
    split_and!; [done | | |].
    + unfold listenerCount. by rewrite (reduce_objects _ _ _ _ _ Hobjs), fold_left_count.
    + unfold listeners. by rewrite (reduce_objects _ _ _ _ _ Hobjs), fold_left_values.
    + clear. induction objs as [|o objs IH]; [done|].
      rewrite !fmap_cons. cbn [concat sum_list sum_list_with].
      rewrite length_app, IH, length_Object_values. done.
  - intros s Hv. destruct (hub_wf_channel h _ Hwf Hv) as (s' & o & [= <-] & Ho).
    exists (length o), (Object_values o). unfold listenerCount, listeners.
    rewrite Hv. cbn [negb]. rewrite Ho.
    by rewrite length_Object_keys, length_Object_values.
Qed.

Lemma counts_agree_with_listeners_witness :
  exists n l,
    listenerCount VUndefined busy_hub = Return n /\
    listeners VUndefined busy_hub = Return l /\
    length l = n.
Proof.
  destruct (counts_agree_with_listeners busy_hub eq_refl)
    as [(objs & Hobjs & Hc & Hl & Hlen) _].
  exists (sum_list (length <$> objs)), (concat (Object_values <$> objs)).
  split_and!; [exact Hc | exact Hl | exact Hlen].
Defined.

(** ** Clearing *)

Lemma clear_all_keeps_empty names h s :
  callbacks h !! s = Some [] ->
  callbacks (fold_left (fun h' name => set_channel name [] h') names h) !! s = Some [].
Proof.
  revert h. induction names as [|n names IH]; intros h Hs; [done|].
  cbn [fold_left]. apply IH. destruct n; try done. simpl.
  destruct (decide (s0 = s)) as [->|Hne].
  - apply lookup_insert_eq.
  - by rewrite lookup_insert_ne.
Qed.

Lemma clear_all_declared names h s :
  VString s ∈ names ->
  callbacks (fold_left (fun h' name => set_channel name [] h') names h) !! s = Some [].
Proof.
  revert h. induction names as [|n names IH]; intros h Hin.
  - by apply elem_of_nil in Hin.
  - cbn [fold_left]. apply elem_of_cons in Hin as [<-|Hin]; [|by apply IH].
    apply clear_all_keeps_empty. simpl. apply lookup_insert_eq.
Qed.

Lemma clear_all_others names h s :
  VString s ∉ names ->
  callbacks (fold_left (fun h' name => set_channel name [] h') names h) !! s
    = callbacks h !! s.
Proof.
  revert h. induction names as [|n names IH]; intros h Hnin; [done|].
  cbn [fold_left]. apply not_elem_of_cons in Hnin as [Hne Hnin].
  rewrite (IH _ Hnin). destruct n; try done. simpl.
  apply lookup_insert_ne. congruence.
Qed.

Lemma clear_all_fields names h :
  let h' := fold_left (fun h' name => set_channel name [] h') names h in
  eventNames h' = eventNames h /\ validEvents h' = validEvents h /\
  debugAll h' = debugAll h /\ debugFilter h' = debugFilter h /\
  logger h' = logger h /\ onceWrappers h' = onceWrappers h.
Proof.
  revert h. induction names as [|n names IH]; intros h; [done|].
  cbn [fold_left]. destruct (IH (set_channel n [] h)) as (-> & -> & -> & -> & -> & ->).
  by destruct n.
Qed.

Lemma reduce_empty {A} (f : A -> object -> A) h names acc :
  (forall a, f a [] = a) ->
  (forall name, name ∈ names -> channel h name = Some []) ->
  reduce f h names acc = Return acc.
Proof.
  intros Hf. induction names as [|n names IH]; intros Hall; simpl; [done|].
  rewrite (Hall n) by left. rewrite Hf. apply IH. intros name Hn. apply Hall. by right.
Qed.

(** X7.  [clear(channel)] on a declared channel does what [off(channel)]
    does; for a value other than undefined that is not a declared channel
    it throws the undeclared-channel Error and changes nothing.
    [clear()] on a well-formed hub gives every name of [eventNames] an
    empty object and changes nothing else: afterwards [listenerCount()]
    is zero and [listeners()] is empty, while the names, the debug
    configuration and the logger are as before. *)
Theorem clear_empties h :
  hub_wf h = true ->
  (forall s, set_has (VString s) (validEvents h) = true ->
     clear (VString s) h = off (VString s) VUndefined h) /\
  (forall e, e <> VUndefined -> set_has e (validEvents h) = false ->
     clear e h = (Throw (not_registered e h), h)) /\
  (exists h',
     clear VUndefined h = (Return tt, h') /\
     (forall name, name ∈ eventNames h -> channel h' name = Some []) /\
     (forall s, VString s ∉ eventNames h -> callbacks h' !! s = callbacks h !! s) /\
     listenerCount VUndefined h' = Return 0%nat /\
     listeners VUndefined h' = Return [] /\
     eventNames h' = eventNames h /\ validEvents h' = validEvents h /\
     debugAll h' = debugAll h /\ debugFilter h' = debugFilter h /\
     logger h' = logger h).
Proof.
  intros Hwf. split_and!.
  - intros s Hv. unfold clear, off. by rewrite Hv.
  - intros e Hu Hv. unfold clear. rewrite Hv. by destruct e.
  - eexists. split; [reflexivity|].
    set (h' := fold_left _ _ _).
    destruct (clear_all_fields (eventNames h) h) as (He & Hval & Hda & Hdf & Hl & _).
    fold h' in He, Hval, Hda, Hdf, Hl.
    assert (Hall : forall name, name ∈ eventNames h -> channel h' name = Some []).
    { intros name Hin. pose proof Hwf as [_ Hn]%andb_prop.
      rewrite forallb_forall in Hn.
      destruct (hub_wf_channel h name Hwf) as (s & o & -> & _);
        [by apply Hn, list_elem_of_In|].
      simpl. unfold h'. by apply clear_all_declared. }
    split_and!; try done.
    + intros s Hs. unfold h'. by apply clear_all_others.
    + unfold listenerCount. rewrite He. by apply reduce_empty.
    + unfold listeners. rewrite He.
      apply reduce_empty; [intros a; apply app_nil_r | done].
Qed.

Lemma clear_empties_witness :
  exists h',
    clear VUndefined busy_hub = (Return tt, h') /\
    channel h' (VString "a") = Some [] /\
    listenerCount VUndefined h' = Return 0%nat.
Proof.
  destruct (clear_empties busy_hub eq_refl) as (_ & _ & h' & Hc & Hall & _ & Hn & _).
  exists h'. split_and!; [exact Hc | | exact Hn].
  apply Hall. left.
Defined.

(** ** The array of names *)

Lemma reduce_missing {A} (f : A -> object -> A) h names acc s :
  s ∈ names -> callbacks h !! s = None ->
  reduce f h (VString <$> names) acc = Throw EngineTypeError.
Proof.
  intros Hin Hs. revert acc. induction names as [|n names IH]; intros acc.
  - by apply elem_of_nil in Hin.
  - rewrite fmap_cons. cbn [reduce channel].
    destruct (callbacks h !! n) as [o|] eqn:Hn; [|done].
    apply elem_of_cons in Hin as [->|Hin]; [congruence | by apply IH].
Qed.

(** X8.  The hub reads the names from the caller's own array each time,
    but validates against the set built at construction.  After the
    caller has stored other names in the array: [eventNames()] returns a
    copy of what the array holds now; [on], [off], [setDebug] and
    [listenerCount(channel)] answer as before, so a name that was added
    is still refused and a name that was taken out is still accepted;
    [listenerCount()] and [listeners()] go over the array as it is now,
    and fail with the engine's TypeError when it holds a name that has no
    listener object; and [clear()] empties, or creates, the object of
    each name now in the array and leaves the listeners of every other
    channel in place. *)
Theorem eventNames_follow_the_array h names :
  hub_eventNames (caller_writes (VString <$> names) h) = VString <$> names /\
  (forall e i c,
     on e i c (caller_writes (VString <$> names) h)
       = ((on e i c h).1, caller_writes (VString <$> names) (on e i c h).2)) /\
  (forall e i,
     off e i (caller_writes (VString <$> names) h)
       = ((off e i h).1, caller_writes (VString <$> names) (off e i h).2)) /\
  (forall v,
     setDebug v (caller_writes (VString <$> names) h)
       = ((setDebug v h).1, caller_writes (VString <$> names) (setDebug v h).2)) /\
  (forall e, e <> VUndefined ->
     listenerCount e (caller_writes (VString <$> names) h) = listenerCount e h) /\
  (forall s, s ∈ names -> callbacks h !! s = None ->
     listenerCount VUndefined (caller_writes (VString <$> names) h)
       = Throw EngineTypeError /\
     listeners VUndefined (caller_writes (VString <$> names) h)
       = Throw EngineTypeError) /\
  (forall objs,
     Forall2 (fun s o => callbacks h !! s = Some o) names objs ->
     listenerCount VUndefined (caller_writes (VString <$> names) h)
       = Return (sum_list (length <$> objs)) /\
     listeners VUndefined (caller_writes (VString <$> names) h)
       = Return (concat (Object_values <$> objs))) /\
  (exists h',
     clear VUndefined (caller_writes (VString <$> names) h) = (Return tt, h') /\
     (forall s, s ∈ names -> callbacks h' !! s = Some []) /\
     (forall s, s ∉ names -> callbacks h' !! s = callbacks h !! s) /\
     validEvents h' = validEvents h /\
     hub_eventNames h' = VString <$> names).
Proof.
  split_and!.
  - done.
  - intros e i c. unfold on. cbn [validEvents caller_writes].
    destruct (negb _); [done|]. destruct i; try done.
    destruct (String.eqb _ _); [done|]. destruct c; try done.
    destruct e; try done. simpl. by destruct (callbacks h !! s0).
  - intros e i. unfold off. cbn [validEvents caller_writes].
    destruct (negb _); [done|]. destruct i; try done; destruct e; try done.
    simpl. by destruct (callbacks h !! s0).
  - intros v. unfold setDebug.
    assert (Hcheck : forall l, check_filter (caller_writes (VString <$> names) h) l
                               = check_filter h l).
    { induction l as [|w l IH]; simpl; [done|]. by rewrite IH. }
    destruct v as [| |[]| | | | |]; try done.
    rewrite Hcheck. by destruct (check_filter h elems).
  - intros e He. unfold listenerCount. destruct e; try done.
  - intros s Hin Hs. unfold listenerCount, listeners. cbn [eventNames caller_writes].
    split; by apply (reduce_missing _ _ _ _ s).
  - intros objs Hobjs.
    assert (Hobjs' : Forall2 (fun name o =>
                channel (caller_writes (VString <$> names) h) name = Some o)
              (VString <$> names) objs).
    { clear -Hobjs. induction Hobjs; [constructor|].
      rewrite fmap_cons. by constructor. }
    unfold listenerCount, listeners. cbn [eventNames caller_writes].
    rewrite !(reduce_objects _ _ _ _ _ Hobjs'), fold_left_count, fold_left_values.
    done.
  - eexists. split; [reflexivity|]. cbn [eventNames caller_writes].
    destruct (clear_all_fields (VString <$> names)
                (caller_writes (VString <$> names) h)) as (He & Hval & _).
    split_and!.
    + intros s Hs. apply clear_all_declared. apply list_elem_of_fmap. by exists s.
    + intros s Hs. rewrite clear_all_others; [done|].
      intros (s' & [= <-] & Hin)%list_elem_of_fmap. done.
    + by rewrite Hval.
    + unfold hub_eventNames. by rewrite He.
Qed.

Lemma eventNames_follow_the_array_witness :
  on (VString "zzz") (VString "x") (VFunction (noop 1))
     (caller_writes (VString <$> ["a"; "zzz"]) quiet_hub)
    = (Throw (HubError ClassError
                (NotRegistered (VString "zzz") [VString "a"; VString "b"])),
       caller_writes (VString <$> ["a"; "zzz"]) quiet_hub) /\
  listenerCount VUndefined (caller_writes (VString <$> ["a"; "zzz"]) quiet_hub)
    = Throw EngineTypeError /\
  listenerCount (VString "b") (caller_writes (VString <$> ["a"; "zzz"]) quiet_hub)
    = Return 0%nat /\
  exists h',
    clear VUndefined (caller_writes (VString <$> ["a"; "zzz"]) quiet_hub)
      = (Return tt, h') /\
    callbacks h' !! "zzz" = Some [] /\
    callbacks h' !! "b" = callbacks quiet_hub !! "b".
Proof.
  destruct (eventNames_follow_the_array quiet_hub ["a"; "zzz"])
    as (_ & Hon & _ & _ & Hcount & Hmissing & _ & h' & Hclear & Hin & Hout & _).
  split_and!.
  - rewrite Hon. reflexivity.
  - apply (Hmissing "zzz"); [|reflexivity]. right. left.
  - rewrite Hcount by discriminate. reflexivity.
  - exists h'. split_and!; [exact Hclear | |].
    + apply Hin. right. left.
    + apply Hout. intros [H|H]%elem_of_cons; [discriminate|].
      apply elem_of_cons in H as [H|H]; [discriminate | by apply elem_of_nil in H].
Defined.

(** ** The logger *)

(** X9.  [setLogger] with a function replaces the logger and nothing
    else; with any other value it throws a TypeError and changes nothing.
    After it, an [emit] on a declared channel for which debugging is
    enabled calls the new logger first, with the channel and the payload,
    and an [emit] on a channel for which it is not enabled calls no
    logger: [setLogger] does not enable debugging.  This holds of every
    [emit] that ends, and with a new logger and listeners that do not
    emit in turn [emit] does end, in that way. *)
Theorem setLogger_replaces_logger h v :
  hub_wf h = true ->
  (forall f, v = VFunction f ->
     setLogger v h = (Return tt, with_logger f h) /\
     (forall e, debug_enabled (with_logger f h) e = debug_enabled h e) /\
     callbacks (with_logger f h) = callbacks h /\
     (forall depth s data c h' evs,
        set_has (VString s) (validEvents h) = true ->
        hub_emit depth (VString s) data (with_logger f h) = Some (c, h', evs) ->
        if debug_enabled h (VString s)
        then exists inner r rest,
               evs = LoggerCall f (VString s) data inner r :: rest /\
               logger_calls rest = []
        else logger_calls evs = []) /\
     (forall depth s o data,
        set_has (VString s) (validEvents h) = true ->
        channel h (VString s) = Some o ->
        runs_calm depth (with_logger f h) o = true ->
        exists c h' evs,
          hub_emit depth (VString s) data (with_logger f h) = Some (c, h', evs) /\
          if debug_enabled h (VString s)
          then exists inner r rest,
                 evs = LoggerCall f (VString s) data inner r :: rest /\
                 logger_calls rest = []
          else logger_calls evs = [])) /\
  ((forall f, v <> VFunction f) ->
   setLogger v h = (Throw (HubError ClassTypeError LoggerMustBeFunction), h)).
Proof.
  intros Hwf. split.
  - intros f ->.
    assert (Hany : forall depth s data c h' evs,
      set_has (VString s) (validEvents h) = true ->
      hub_emit depth (VString s) data (with_logger f h) = Some (c, h', evs) ->
      if debug_enabled h (VString s)
      then exists inner r rest,
             evs = LoggerCall f (VString s) data inner r :: rest /\
             logger_calls rest = []
      else logger_calls evs = []).
    { intros depth s data c h' evs Hv He.
      assert (Hwf' : hub_wf (with_logger f h) = true) by (by eapply extends_wf).
      destruct (debug_enabled h (VString s)) eqn:Hd.
      - destruct (hub_emit_logged_first depth _ s data c h' evs Hwf' Hv Hd He)
          as (o & inner & r & rest & _ & -> & Hl & _).
        by exists inner, r, rest.
      - by apply (hub_emit_not_logged depth _ s data c h' evs Hwf' Hv Hd He). }
    split_and!; try done.
    intros depth s o data Hv Ho Hr.
    destruct (hub_emit_ends depth (VString s) data (with_logger f h) o Hv Ho Hr)
      as (c & h' & evs & He).
    exists c, h', evs. split; [done|]. by eapply Hany.
  - intros Hf. destruct v; try done. by destruct (Hf f).
Qed.

Lemma setLogger_replaces_logger_witness :
  setLogger (VFunction (noop 8)) faulty_hub = (Return tt, with_logger (noop 8) faulty_hub) /\
  (exists c h' evs inner r rest,
     hub_emit 1 (VString "a") (VNumber 7) (with_logger (noop 8) faulty_hub)
       = Some (c, h', evs) /\
     evs = LoggerCall (noop 8) (VString "a") (VNumber 7) inner r :: rest /\
     logger_calls rest = []) /\
  setLogger (VString "log") faulty_hub
    = (Throw (HubError ClassTypeError LoggerMustBeFunction), faulty_hub).
Proof.
  destruct (setLogger_replaces_logger faulty_hub (VFunction (noop 8)) eq_refl)
    as [H _].
  destruct (H (noop 8) eq_refl) as (Hset & _ & _ & _ & Hrun).
  destruct (setLogger_replaces_logger faulty_hub (VString "log") eq_refl)
    as [_ Hbad].
  split_and!.
  - exact Hset.
  - destruct (Hrun 1%nat "a" [("bad", thrower 1); ("good", noop 2)] (VNumber 7)
                eq_refl eq_refl eq_refl)
      as (c & h' & evs & He & inner & r & rest & Hevs & Hl).
    by exists c, h', evs, inner, r, rest.
  - apply Hbad. discriminate.
Defined.

(** X17.  With the default logger, enabling debugging never makes [emit]
    throw: an [emit] on a declared channel that ends returns whether
    there were listeners, its first event is the call of the default
    logger, which prints the channel and the payload and does nothing
    else, and the listeners of the snapshot are called after it. *)
Theorem default_logger_only_prints depth h s data c h' evs :
  hub_wf h = true ->
  set_has (VString s) (validEvents h) = true ->
  logger h = DefaultLogger ->
  debug_enabled h (VString s) = true ->
  hub_emit depth (VString s) data h = Some (c, h', evs) ->
  exists o rest,
    channel h (VString s) = Some o /\
    c = Return (0 <? length o)%nat /\
    evs = LoggerCall DefaultLogger (VString s) data
            [ConsoleLog (VString s) data] (Return tt) :: rest /\
    listener_calls rest = map (fun cb => (cb, data)) (Object_values o).
Proof.
  intros Hwf Hv Hl Hd He.
  destruct (hub_wf_channel h _ Hwf Hv) as (s' & o & [= <-] & Ho).
  destruct (emit_inv _ _ _ _ _ _ _ _ Hv Ho He)
    as [(_ & x & inner & Hc & _ & _)
       |(pre & h1 & errors & evs' & Hpre & Hf & -> & ->)].
  - rewrite Hl in Hc. by destruct depth.
  - rewrite Hd, Hl in Hpre. destruct Hpre as (inner & Hc & ->).
    destruct depth as [|depth]; [done|]. simpl in Hc. injection Hc as <- <-.
    exists o, (evs' ++ report errors h' (VString s)). split_and!; try done.
    + by rewrite length_Object_values.
    + rewrite listener_calls_app, listener_calls_report, app_nil_r.
      by eapply forEach_listener_calls.
Qed.

Lemma default_logger_only_prints_witness :
  exists h' rest,
    hub_emit 1 (VString "a") (VNumber 7) (with_debug true None quiet_hub)
      = Some (Return true, h',
              LoggerCall DefaultLogger (VString "a") (VNumber 7)
                [ConsoleLog (VString "a") (VNumber 7)] (Return tt) :: rest).
Proof.
  assert (He : exists c h' evs,
    hub_emit 1 (VString "a") (VNumber 7) (with_debug true None quiet_hub)
      = Some (c, h', evs)) by (eexists _, _, _; vm_compute; reflexivity).
  destruct He as (c & h' & evs & He).
  destruct (default_logger_only_prints 1 (with_debug true None quiet_hub) "a"
              (VNumber 7) c h' evs eq_refl eq_refl eq_refl eq_refl He)
    as (o & rest & Ho & -> & -> & _).
  vm_compute in Ho. injection Ho as <-.
  exists h', rest. exact He.
Defined.

(** ** The diagnostics of an emission *)

Lemma thrown_app evs evs' : thrown (evs ++ evs') = thrown evs ++ thrown evs'.
Proof. apply omap_app. Qed.

Lemma printed_errors_app evs evs' :
  printed_errors (evs ++ evs') = printed_errors evs ++ printed_errors evs'.
Proof. apply omap_app. Qed.

Lemma printed_counts_app evs evs' :
  printed_counts (evs ++ evs') = printed_counts evs ++ printed_counts evs'.
Proof. apply omap_app. Qed.

Lemma forEach_errors call_function e snapshot data h errors errors' h' evs :
  forEach call_function e snapshot data h errors = Some (errors', h', evs) ->
  errors' = errors ++ thrown evs /\
  printed_errors evs = map (fun x => (e, x)) (thrown evs) /\
  printed_counts evs = [].
Proof.
  revert h errors errors' h' evs.
  induction snapshot as [|cb rest IH]; intros h errors errors' h' evs; simpl.
  - intros [= <- _ <-]. by rewrite app_nil_r.
  - destruct (call_function cb [data] h) as [[[r h1] inner]|]; [|done].
    destruct r as [[]|x];
      (destruct (forEach call_function e rest data h1 _) as [[[er h2] ev2]|] eqn:Ef;
       [|done]); intros [= <- _ <-]; destruct (IH _ _ _ _ _ Ef) as (-> & Hp & Hc).
    + done.
    + split_and!; [by rewrite <- app_assoc | | done].
      simpl. by rewrite Hp.
Qed.

(** X10.  In an [emit] that returns, [console.error] is given the channel
    and the error once for each listener that threw, in the order of the
    throws.  The count of errors is printed once, as the last event, when
    at least one listener threw and debugging is enabled for the channel
    in the hub as the listeners left it; otherwise no count is printed.
    The count is the number of listeners that threw. *)
Theorem emit_reports_errors depth h s data b h' evs :
  hub_wf h = true ->
  set_has (VString s) (validEvents h) = true ->
  hub_emit depth (VString s) data h = Some (Return b, h', evs) ->
  printed_errors evs = map (fun x => (VString s, x)) (thrown evs) /\
  printed_counts evs
    = (if (0 <? length (thrown evs))%nat && debug_enabled h' (VString s)
       then [(length (thrown evs), VString s)]
       else []) /\
  ((0 <? length (thrown evs))%nat && debug_enabled h' (VString s) = true ->
   exists body,
     evs = body ++ [ConsoleErrorCount (length (thrown evs)) (VString s)]).
Proof.
  intros Hwf Hv He.
  destruct (hub_wf_channel h _ Hwf Hv) as (s' & o & [= <-] & Ho).
  destruct (emit_inv _ _ _ _ _ _ _ _ Hv Ho He)
    as [(_ & x & inner & _ & ? & _)
       |(pre & h1 & errors & evs' & Hpre & Hf & _ & ->)]; [done|].
  destruct (forEach_errors _ _ _ _ _ _ _ _ _ Hf) as (Herr & Hp & Hc).
  simpl in Herr. subst errors.
  assert (Hpre' : thrown pre = [] /\ printed_errors pre = [] /\ printed_counts pre = []).
  { destruct (debug_enabled h (VString s)).
    - by destruct Hpre as (inner & _ & ->).
    - by destruct Hpre as [-> _]. }
  destruct Hpre' as (Ht & Hpe & Hpc).
  assert (Hrep : thrown (report (thrown evs') h' (VString s)) = [] /\
                 printed_errors (report (thrown evs') h' (VString s)) = []).
  { unfold report. by destruct (_ && _). }
  destruct Hrep as [Hrt Hrp].
  rewrite !thrown_app, Ht, Hrt, app_nil_r. simpl.
  split_and!.
  - by rewrite !printed_errors_app, Hpe, Hrp, app_nil_r.
  - rewrite !printed_counts_app, Hpc, Hc. unfold report. by destruct (_ && _).
  - intros Hon. exists (pre ++ evs'). unfold report. rewrite Hon.
    by rewrite app_assoc.
Qed.

Lemma emit_reports_errors_witness :
  exists h' evs,
    hub_emit 1 (VString "a") (VNumber 7)
      (register_all (VString "a") [("s", switcher)] (fresh_hub ["a"]))
      = Some (Return true, h', evs) /\
    logger_calls evs = [] /\
    printed_counts evs = [(1%nat, VString "a")].
Proof.
  eexists _, _. split; [vm_compute; reflexivity|]. split; [vm_compute; reflexivity|].
  edestruct (emit_reports_errors 1
               (register_all (VString "a") [("s", switcher)] (fresh_hub ["a"]))
               "a" (VNumber 7) true) as (_ & Hc & _).
  - reflexivity.
  - reflexivity.
  - vm_compute. reflexivity.
  - exact Hc.
Defined.

(** ** One-shot registration *)

(** X11.  [once] checks the channel and then the callback, and only then
    builds the wrapper and hands it, with the id, to [on]: a value that is
    not a function is refused whatever the id is, while [on] given the
    same arguments refuses a bad id first.  [once] returns exactly when
    the channel is declared, the callback a function and the id a
    non-blank string; the channel's object then holds, under the id, the
    wrapper of that callback for that channel and id. *)
Theorem once_validates h e i c :
  (set_has e (validEvents h) = false ->
   once e i c h = (Throw (not_registered e h), h)) /\
  (set_has e (validEvents h) = true -> (forall f, c <> VFunction f) ->
   once e i c h = (Throw (HubError ClassTypeError CallbackMustBeFunction), h) /\
   ((forall k, i = VString k -> trim k = "") ->
    on e i c h = (Throw (HubError ClassTypeError IdMustBeNonEmptyString), h))) /\
  (forall h',
     once e i c h = (Return tt, h') <->
     exists s k f o,
       e = VString s /\ set_has e (validEvents h) = true /\
       i = VString k /\ trim k <> "" /\ c = VFunction f /\
       channel h e = Some o /\
       h' = set_channel e (set_property k (OnceWrapper f e i) o)
              (with_onceWrappers (onceWrappers h ++ [(f, OnceWrapper f e i)]) h)).
Proof.
  split_and!.
  - intros Hv. unfold once. by rewrite Hv.
  - intros Hv Hc. split.
    + unfold once. rewrite Hv. simpl. destruct c; try done. by destruct (Hc f).
    + intros Hi. unfold on. rewrite Hv. simpl.
      destruct i; try done. by rewrite (Hi s eq_refl).
  - intros h'. split.
    + unfold once. destruct (set_has e (validEvents h)) eqn:Hv; simpl; [|done].
      destruct c as [| | | | | | |f]; try done.
      unfold on. cbn [validEvents with_onceWrappers]. rewrite Hv. cbn [negb].
      destruct i as [| | | |k| | |]; try done.
      destruct (String.eqb (trim k) "") eqn:Hk; [done|].
      destruct e as [| | | |s| | |]; try done. simpl.
      destruct (callbacks h !! s) as [o|] eqn:Ho; [|done]. intros [= <-].
      exists s, k, f, o. split_and!; try done. by apply String.eqb_neq.
    + intros (s & k & f & o & -> & Hv & -> & Hk & -> & Ho & ->).
      by apply once_registers.
Qed.

Lemma once_validates_witness :
  once (VString "a") (VString " ") (VNumber 3) quiet_hub
    = (Throw (HubError ClassTypeError CallbackMustBeFunction), quiet_hub) /\
  on (VString "a") (VString " ") (VNumber 3) quiet_hub
    = (Throw (HubError ClassTypeError IdMustBeNonEmptyString), quiet_hub).
Proof.
  destruct (once_validates quiet_hub (VString "a") (VString " ") (VNumber 3))
    as (_ & H & _).
  destruct (H eq_refl) as [Honce Hon]; [discriminate|].
  split; [exact Honce|]. apply Hon. intros k [= <-]. reflexivity.
Defined.

(** X12.  When the wrapper that [once] built returns, no listener is
    registered under its channel and id, whatever the callback did:
    [hub.off] runs after the callback and removes also a listener that
    the callback itself registered under that id. *)
Theorem once_wrapper_unregisters depth h s k cb args h2 evs :
  hub_wf h = true ->
  set_has (VString s) (validEvents h) = true ->
  call depth (OnceWrapper cb (VString s) (VString k)) args h
    = Some (Return tt, h2, evs) ->
  exists o2 inner,
    channel h2 (VString s) = Some o2 /\
    get_property k o2 = None /\
    evs = [CallbackCall cb (arg 0 args) inner (Return tt)].
Proof.
  intros Hwf Hv. destruct depth as [|depth]; [done|]. simpl.
  destruct (call depth cb _ h) as [[[c h1] inner]|] eqn:Ec; [|done].
  destruct c as [[]|x]; [|done].
  pose proof (call_extends _ _ _ _ _ _ _ Ec) as Hext.
  assert (Hwf1 : hub_wf h1 = true) by (by eapply extends_wf).
  assert (Hv1 : set_has (VString s) (validEvents h1) = true)
    by (destruct Hext as (-> & _); done).
  destruct (hub_wf_channel h1 _ Hwf1 Hv1) as (s' & o1 & [= <-] & Ho1).
  unfold off. rewrite Hv1. cbn [negb]. rewrite Ho1. intros [= <- <-].
  exists (delete_property k o1), inner. split_and!; [| apply get_delete_eq | done].
  apply channel_set_channel.
Qed.

Lemma once_wrapper_unregisters_witness :
  exists h2 evs o2,
    call 2 (OnceWrapper rebinder (VString "a") (VString "y")) [VNumber 7]
      (fresh_hub ["a"]) = Some (Return tt, h2, evs) /\
    channel h2 (VString "a") = Some o2 /\
    get_property "y" o2 = None.
Proof.
  assert (Hc : exists h2 evs,
    call 2 (OnceWrapper rebinder (VString "a") (VString "y")) [VNumber 7]
      (fresh_hub ["a"]) = Some (Return tt, h2, evs))
    by (eexists _, _; vm_compute; reflexivity).
  destruct Hc as (h2 & evs & Hc).
  destruct (once_wrapper_unregisters 2 (fresh_hub ["a"]) "a" "y" rebinder
              [VNumber 7] h2 evs eq_refl eq_refl Hc) as (o2 & inner & Ho & Hk & _).
  by exists h2, evs, o2.
Defined.

(** ** Construction, continued *)

Lemma set_has_fold_set_add v l acc :
  set_has v acc = true -> set_has v (fold_left set_add l acc) = true.
Proof.
  revert acc. induction l as [|u l IH]; intros acc Hv; [done|].
  cbn [fold_left]. apply IH. unfold set_add.
  destruct (set_has u acc); [done|]. by rewrite set_has_app, Hv.
Qed.

Lemma fold_set_add_repeated l acc :
  (exists j v, l !! j = Some v /\ set_has v acc = true) \/
  (exists i j s, i < j /\ l !! i = Some (VString s) /\ l !! j = Some (VString s)) ->
  length (fold_left set_add l acc) < length acc + length l.
Proof.
  revert acc. induction l as [|u l IH]; intros acc H.
  - destruct H as [(j & v & Hj & _)|(i & j & s & _ & Hi & _)]; by destruct j || destruct i.
  - cbn [fold_left length]. unfold set_add at 2.
    destruct (set_has u acc) eqn:Eu.
    + pose proof (length_fold_set_add l acc). lia.
    + assert (Hlen : length (acc ++ [u]) = S (length acc))
        by (rewrite length_app; simpl; lia).
      enough (length (fold_left set_add l (acc ++ [u])) < length (acc ++ [u]) + length l)
        by lia.
      apply IH. destruct H as [(j & v & Hj & Hv)|(i & j & s & Hij & Hi & Hj)].
      * destruct j as [|j]; simpl in Hj.
        { injection Hj as ->. congruence. }
        left. exists j, v. split; [done|]. by rewrite set_has_app, Hv.
      * destruct j as [|j]; [lia|]. simpl in Hj. destruct i as [|i]; simpl in Hi.
        { injection Hi as ->. left. exists j, (VString s). split; [done|].
          rewrite set_has_app. simpl. rewrite String.eqb_refl.
          by rewrite orb_true_r. }
        right. exists i, j, s. split_and!; [lia | done | done].
Qed.

Lemma fold_set_add_distinct l acc :
  pairwise_distinct l = true ->
  (forall u, u ∈ l -> set_has u acc = false) ->
  fold_left set_add l acc = acc ++ l.
Proof.
  revert acc. induction l as [|v l IH]; intros acc Hd Hacc.
  - by rewrite app_nil_r.
  - cbn [fold_left pairwise_distinct] in *. apply andb_prop in Hd as [Hv Hd].
    unfold set_add at 2. rewrite (Hacc v) by left.
    rewrite (IH _ Hd); [by rewrite <- app_assoc|].
    intros u Hu. rewrite set_has_app, (Hacc u) by (by right). simpl.
    rewrite forallb_forall in Hv. specialize (Hv u). rewrite orb_false_r.
    apply negb_true_iff, Hv. by apply list_elem_of_In.
Qed.

Lemma init_callbacks_first_other names v post c :
  typeof v <> "string" ->
  init_callbacks ((VString <$> names) ++ v :: post) c
    = Throw (HubError ClassTypeError (NameMustBeString (typeof v))).
Proof.
  intros Hv. revert c. induction names as [|n names IH]; intros c.
  - simpl. by destruct v.
  - rewrite fmap_cons. cbn [app init_callbacks]. apply IH.
Qed.

(** X13.  [createNexusHub] looks for a repeated name before it looks at
    the types of the names: an array in which a string occurs twice gives
    the duplicate-names Error even when it also holds elements that are
    not strings, and an array of distinct elements gives the TypeError
    that tells the [typeof] of the first element that is not a string. *)
Theorem createNexusHub_error_order :
  (forall ref elems i j s,
     i < j -> elems !! i = Some (VString s) -> elems !! j = Some (VString s) ->
     createNexusHub (VArray ref elems) = Throw (HubError ClassError DuplicateNames)) /\
  (forall ref names v post,
     typeof v <> "string" ->
     pairwise_distinct ((VString <$> names) ++ v :: post) = true ->
     createNexusHub (VArray ref ((VString <$> names) ++ v :: post))
       = Throw (HubError ClassTypeError (NameMustBeString (typeof v)))).
Proof.
  split.
  - intros ref elems i j s Hij Hi Hj. simpl.
    assert (Hlen : length (new_Set elems) < length elems).
    { apply (fold_set_add_repeated elems []). right. by exists i, j, s. }
    destruct elems as [|u elems]; [done|].
    replace (length (u :: elems) =? 0)%nat with false by done.
    replace (length (new_Set (u :: elems)) =? length (u :: elems))%nat with false; [done|].
    symmetry. apply Nat.eqb_neq. lia.
  - intros ref names v post Hv Hd. simpl.
    rewrite length_app. simpl.
    replace (length (VString <$> names) + S (length post) =? 0)%nat with false
      by (symmetry; apply Nat.eqb_neq; lia).
    unfold new_Set. rewrite (fold_set_add_distinct _ [] Hd) by done. simpl.
    rewrite length_app. simpl. rewrite Nat.eqb_refl. simpl.
    by rewrite init_callbacks_first_other.
Qed.

Lemma createNexusHub_error_order_witness :
  createNexusHub (VArray 0 [VNumber 1; VString "a"; VNull; VString "a"])
    = Throw (HubError ClassError DuplicateNames) /\
  createNexusHub (VArray 0 ((VString <$> ["a"; "b"]) ++ VNumber 1 :: [VNull]))
    = Throw (HubError ClassTypeError (NameMustBeString "number")).
Proof.
  destruct createNexusHub_error_order as [Hdup Hty]. split.
  - apply (Hdup 0%nat _ 1%nat 3%nat "a"); [lia | reflexivity | reflexivity].
  - apply (Hty 0%nat ["a"; "b"] (VNumber 1) [VNull]); [discriminate | reflexivity].
Defined.

(** ** Debug configuration, continued *)

Lemma with_debug_twice a f a' f' h : with_debug a f (with_debug a' f' h) = with_debug a f h.
Proof. done. Qed.

(** X14.  The last [setDebug] call decides: after a [setDebug] that
    returned, a further [setDebug] gives what it would have given on the
    hub before the first, whether it returns or throws, so that neither
    the flag nor the filter set by the first call remains.  [setDebug]
    with an empty array returns, and afterwards debugging is enabled for
    no channel, as after [setDebug(false)]. *)
Theorem setDebug_last_call_decides h u v h1 :
  setDebug u h = (Return tt, h1) ->
  (forall h2, setDebug v h1 = (Return tt, h2) <-> setDebug v h = (Return tt, h2)) /\
  (forall x, setDebug v h1 = (Throw x, h1) <-> setDebug v h = (Throw x, h)) /\
  (forall ref h2,
     setDebug (VArray ref []) h1 = (Return tt, h2) ->
     forall e, debug_enabled h2 e = false).
Proof.
  intros Hu.
  assert (Hh1 : exists a f, h1 = with_debug a f h).
  { unfold setDebug in Hu. repeat case_match; try done; injection Hu as <-; eauto. }
  destruct Hh1 as (a & f & ->).
  assert (Hcheck : forall l, check_filter (with_debug a f h) l = check_filter h l).
  { induction l as [|w l IH]; simpl; [done|]. by rewrite IH. }
  split_and!.
  - intros h2. unfold setDebug. destruct v as [| |[]| | | | |]; try done;
      rewrite ?Hcheck, ?with_debug_twice; try done.
    destruct (check_filter h elems); [|done]. split; done.
  - intros x. unfold setDebug. destruct v as [| |[]| | | | |]; try done;
      rewrite ?Hcheck;
      try (split; intros [= <-]; done).
    destruct (check_filter h elems); [|done]. split; intros [= <-]; done.
  - intros ref h2 [= <-] e. done.
Qed.

Lemma setDebug_last_call_decides_witness :
  setDebug (VArray 0 [VString "b"]) (with_debug true None quiet_hub)
    = (Return tt, with_debug false (Some [VString "b"]) quiet_hub) /\
  debug_enabled (with_debug false (Some [VString "b"]) quiet_hub) (VString "a") = false.
Proof.
  destruct (setDebug_last_call_decides quiet_hub (VBoolean true)
              (VArray 0 [VString "b"]) (with_debug true None quiet_hub) eq_refl)
    as (H & _ & _).
  split; [|reflexivity]. apply H. reflexivity.
Defined.

(** ** Emission, continued *)

(** X16.  [emit] changes the hub only through what the logger and the
    listeners do: with debugging off for the channel and listeners that
    make no call into the hub, [emit] on a declared channel leaves the
    hub exactly as it was, having called each listener of the snapshot
    once with the payload; on a channel without listeners it returns
    [false] and does nothing at all. *)
Theorem emit_alone_changes_nothing depth h s data o :
  set_has (VString s) (validEvents h) = true ->
  channel h (VString s) = Some o ->
  debug_enabled h (VString s) = false ->
  forallb (fun f => is_inert f && (call_depth f <=? depth)%nat) o.*2 = true ->
  (exists evs,
     hub_emit depth (VString s) data h = Some (Return (0 <? length o)%nat, h, evs) /\
     listener_calls evs = map (fun cb => (cb, data)) (Object_values o)) /\
  (o = [] -> hub_emit depth (VString s) data h = Some (Return false, h, [])).
Proof.
  intros Hv Ho Hd Hall. split.
  - destruct (hub_emit_inert depth s data h o Hv Ho Hd) as (evs & He & _).
    { intros f Hf. rewrite forallb_forall in Hall.
      specialize (Hall f (proj1 (list_elem_of_In _ _) Hf)).
      apply andb_prop in Hall as [Hi Hc]. split; [done|]. by apply Nat.leb_le. }
    exists evs. split; [done|].
    by destruct (emit_Return_listener_calls _ _ _ _ _ _ _ _ Hv Ho He).
  - intros ->. unfold hub_emit, emit. by rewrite Hv, Ho, Hd.
Qed.

Lemma emit_alone_changes_nothing_witness :
  exists evs,
    hub_emit 1 (VString "a") (VNumber 7) quiet_hub = Some (Return true, quiet_hub, evs) /\
    listener_calls evs = [(thrower 1, VNumber 7); (noop 2, VNumber 7)].
Proof.
  destruct (emit_alone_changes_nothing 1 quiet_hub "a" (VNumber 7)
              [("bad", thrower 1); ("good", noop 2)] eq_refl eq_refl eq_refl eq_refl)
    as [(evs & He & Hc) _].
  exists evs. split; [exact He | exact Hc].
Defined.

(** X15.  After [on(channel, id, cb)] every [emit] on the channel that
    returns has called [cb] with the payload, and has made as many
    listener calls as [listenerCount(channel)] told before the [emit]. *)
Theorem on_then_emit depth h s k f o data b h' evs :
  set_has (VString s) (validEvents h) = true ->
  trim k <> "" ->
  channel h (VString s) = Some o ->
  hub_emit depth (VString s) data (on (VString s) (VString k) (VFunction f) h).2
    = Some (Return b, h', evs) ->
  b = true /\
  (f, data) ∈ listener_calls evs /\
  listenerCount (VString s) (on (VString s) (VString k) (VFunction f) h).2
    = Return (length (listener_calls evs)).
Proof.
  intros Hv Hk Ho. rewrite (on_registers h s k f o Hv Hk Ho). cbn [snd].
  set (o1 := set_property k f o). set (h1 := set_channel (VString s) o1 h).
  intros He.
  assert (Hv1 : set_has (VString s) (validEvents h1) = true) by done.
  assert (Ho1 : channel h1 (VString s) = Some o1) by apply channel_set_channel.
  destruct (emit_Return_listener_calls _ _ _ _ _ _ _ _ Hv1 Ho1 He) as [Hc ->].
  assert (Hin : f ∈ Object_values o1).
  { rewrite Object_values_perm. eapply get_property_values, get_set_eq. }
  split_and!.
  - apply Nat.ltb_lt. destruct (Object_values o1); [by apply elem_of_nil in Hin|].
    simpl. lia.
  - rewrite Hc. apply list_elem_of_fmap. by exists f.
  - unfold listenerCount. rewrite Hv1. cbn [negb]. rewrite Ho1, Hc.
    by rewrite length_map, length_Object_keys, length_Object_values.
Qed.

Lemma on_then_emit_witness :
  exists h' evs,
    hub_emit 1 (VString "b") (VNumber 42)
      (on (VString "b") (VString "x") (VFunction (noop 3)) quiet_hub).2
      = Some (Return true, h', evs) /\
    (noop 3, VNumber 42) ∈ listener_calls evs.
Proof.
  assert (Hk : trim "x" <> "") by (vm_compute; discriminate).
  assert (He : exists h' evs,
    hub_emit 1 (VString "b") (VNumber 42)
      (on (VString "b") (VString "x") (VFunction (noop 3)) quiet_hub).2
      = Some (Return true, h', evs)) by (eexists _, _; vm_compute; reflexivity).
  destruct He as (h' & evs & He).
  destruct (on_then_emit 1 quiet_hub "b" "x" (noop 3) [] (VNumber 42) true h' evs
              eq_refl Hk eq_refl He) as (_ & Hin & _).
  by exists h', evs.
Defined.
